(** * chronos-go: the request pipeline and the schedule formatter

    A shallow embedding of the Go package [chronos] (the client of
    [chronos.go] and the job operations and schedule functions that come
    with it) and the properties of its request executor, its URL builder,
    its operation facade and its schedule string formatter.

    Go strings are byte strings and are modelled by [string]; Go [int] values
    by [Z]; a Go [error] by the inductive [error], [None] standing for [nil].
    Functions of the Go standard library that the package calls
    ([strings.HasPrefix], [strings.TrimSpace], [path.Join], [url.Values],
    [time.Time.Format]) are modelled after their documented behaviour, each
    under the name it has in Go.  The HTTP transport and the JSON codec are
    capabilities the package consumes: they are section variables. *)

From Stdlib Require Import ZArith List String Ascii Bool Lia DecimalString.
Import ListNotations.

Local Open Scope string_scope.
Local Open Scope Z_scope.

Set Implicit Arguments.

(* ===================================================================== *)
(** * Go values *)
(* ===================================================================== *)

(** [error]: the dynamic kinds of error value that flow through the
    package.  [errorString] is what [errors.New] builds. *)
Inductive error : Type :=
| errorString (s : string)
| TransportError (s : string)
| SyntaxError (s : string)
| UnmarshalError (s : string)
| UnsupportedValueError (s : string)
| RequestError (s : string).

(** [err.Error()] *)
Definition Error (e : error) : string :=
  match e with
  | errorString s => s
  | TransportError s => s
  | SyntaxError s => s
  | UnmarshalError s => s
  | UnsupportedValueError s => s
  | RequestError s => s
  end.

Definition errors_New (s : string) : error := errorString s.

(** [io.EOF] is [errors.New("EOF")]. *)
Definition io_EOF : error := errors_New "EOF".

(** [strings.HasPrefix(s, prefix)] *)
Definition strings_HasPrefix (s p : string) : bool := String.prefix p s.

(* ===================================================================== *)
(** * package time: instants and their RFC 3339 rendering *)
(* ===================================================================== *)

Module time.

(** A [time.Time]: the seconds elapsed since January 1, year 1, 00:00:00
    UTC, the nanoseconds within that second, and the offset east of UTC
    (in seconds) that the value's location gives at that instant. *)
Record Time : Type := mkTime {
  sec : Z;
  nsec : Z;
  offset : Z
}.

(** The zero value of [time.Time]. *)
Definition zero : Time := mkTime 0 0 0.

(** [t.IsZero()]: "reports whether t represents the zero time instant,
    January 1, year 1, 00:00:00 UTC" -- the location plays no part. *)
Definition IsZero (t : Time) : bool := (sec t =? 0) && (nsec t =? 0).

Definition digits (n : Z) : string :=
  NilZero.string_of_uint (N.to_uint (Z.to_N n)).

Fixpoint zeros (k : nat) : string :=
  match k with
  | O => ""
  | S k' => String "0" (zeros k')
  end.

(** [appendInt(b, x, width)]: decimal text of [x], zero-padded to [width]
    digits, a minus sign first when [x] is negative. *)
Definition appendInt (x : Z) (width : nat) : string :=
  let d := digits (Z.abs x) in
  let body := zeros (width - String.length d) ++ d in
  if x <? 0 then String "-" body else body.

(** Drops the zeros at the end of a digit string. *)
Fixpoint trimZeros (s : string) : string :=
  match s with
  | EmptyString => EmptyString
  | String c s' =>
      match trimZeros s' with
      | EmptyString => if Ascii.eqb c "0" then EmptyString else String c EmptyString
      | r => String c r
      end
  end.

(** [appendNano] for the layout element [.999999999]: up to nine
    fractional digits, trailing zeros removed, nothing at all when the
    fraction is zero. *)
Definition appendNano (ns : Z) : string :=
  match trimZeros (appendInt ns 9) with
  | EmptyString => ""
  | f => String "." f
  end.

(** Civil date of a day count from January 1, year 1 (day 0), in the
    proleptic Gregorian calendar: (year, month, day). *)
Definition date (days : Z) : Z * Z * Z :=
  let z := days + 306 in
  let era := z / 146097 in
  let doe := z - era * 146097 in
  let yoe := (doe - doe / 1460 + doe / 36524 - doe / 146096) / 365 in
  let doy := doe - (365 * yoe + yoe / 4 - yoe / 100) in
  let mp := (5 * doy + 2) / 153 in
  let d := doy - (153 * mp + 2) / 5 + 1 in
  let m := if mp <? 10 then mp + 3 else mp - 9 in
  let y := yoe + era * 400 + (if m <=? 2 then 1 else 0) in
  (y, m, d).

(** The zone element [Z07:00]. *)
Definition appendZone (off : Z) : string :=
  if off =? 0 then "Z"
  else
    let zone := Z.quot off 60 in
    let sign := if zone <? 0 then "-" else "+" in
    let zone := Z.abs zone in
    sign ++ appendInt (zone / 60) 2 ++ ":" ++ appendInt (zone mod 60) 2.

(** [t.Format(time.RFC3339Nano)], layout
    ["2006-01-02T15:04:05.999999999Z07:00"]. *)
Definition Format_RFC3339Nano (t : Time) : string :=
  let abs := sec t + offset t in
  let '(year, month, day) := date (abs / 86400) in
  let secs := abs mod 86400 in
  appendInt year 4 ++ "-" ++ appendInt month 2 ++ "-" ++ appendInt day 2
    ++ "T" ++ appendInt (secs / 3600) 2 ++ ":" ++ appendInt (secs mod 3600 / 60) 2
    ++ ":" ++ appendInt (secs mod 60) 2
    ++ appendNano (nsec t) ++ appendZone (offset t).

(** Seconds from January 1, year 1 to January 1, 1970 (the Unix epoch). *)
Definition unixToInternal : Z := 62135596800.

(** [time.Unix(s, ns).In(time.FixedZone("", off))] *)
Definition Unix (s ns off : Z) : Time := mkTime (s + unixToInternal) ns off.

End time.

(* ===================================================================== *)
(** * package strings and package path *)
(* ===================================================================== *)

(** Splits [s] at every occurrence of the byte [sep]; the pieces are never
    fewer than one. *)
Fixpoint split_on (sep : ascii) (s : string) : list string :=
  match s with
  | EmptyString => [EmptyString]
  | String c s' =>
      if Ascii.eqb c sep then EmptyString :: split_on sep s'
      else
        match split_on sep s' with
        | [] => [String c EmptyString]
        | p :: ps => String c p :: ps
        end
  end.

(** [strings.Cut(s, sep)] for a one-byte separator: the text before the
    first [sep] and the text after it (empty when [sep] does not occur). *)
Fixpoint strings_Cut (sep : ascii) (s : string) : string * string :=
  match s with
  | EmptyString => (EmptyString, EmptyString)
  | String c s' =>
      if Ascii.eqb c sep then (EmptyString, s')
      else let '(a, b) := strings_Cut sep s' in (String c a, b)
  end.

Fixpoint contains_byte (c : ascii) (s : string) : bool :=
  match s with
  | EmptyString => false
  | String d s' => Ascii.eqb c d || contains_byte c s'
  end.

Module path.

(** One step of [path.Clean] over the stack of kept elements (top first):
    empty and [.] elements vanish, [..] removes the element before it, is
    dropped at the top of a rooted path and kept otherwise. *)
Definition clean_step (rooted : bool) (out : list string) (elem : string)
  : list string :=
  if String.eqb elem "" || String.eqb elem "." then out
  else if String.eqb elem ".." then
    match out with
    | top :: rest =>
        if String.eqb top ".." then elem :: out else rest
    | [] => if rooted then [] else [elem]
    end
  else elem :: out.

(** [path.Clean]: the shortest path name equivalent to [p] by purely
    lexical processing; the empty path becomes [.]. *)
Definition Clean (p : string) : string :=
  let rooted := strings_HasPrefix p "/" in
  let out := fold_left (clean_step rooted) (split_on "/" p) [] in
  let body := String.concat "/" (rev out) in
  let r := if rooted then String "/" body else body in
  if String.eqb r "" then "." else r.

(** The buffer loop of [path.Join]: an element is appended, after a
    slash when the buffer is not empty, unless nothing was written yet and
    the element is empty. *)
Fixpoint join_buf (buf : string) (elems : list string) : string :=
  match elems with
  | [] => buf
  | e :: es =>
      if negb (String.eqb buf "") || negb (String.eqb e "") then
        join_buf ((if String.eqb buf "" then buf else buf ++ "/") ++ e) es
      else join_buf buf es
  end.

(** [path.Join(elem...)] *)
Definition Join (elems : list string) : string :=
  if forallb (String.eqb "") elems then ""
  else Clean (join_buf "" elems).

End path.

(* ===================================================================== *)
(** * Unicode white space and strings.TrimSpace *)
(* ===================================================================== *)

Module unicode.

(** The code points with the Unicode property White_Space, the ones
    [unicode.IsSpace] accepts. *)
Definition White_Space : list N :=
  [0x09; 0x0A; 0x0B; 0x0C; 0x0D; 0x20; 0x85; 0xA0; 0x1680;
   0x2000; 0x2001; 0x2002; 0x2003; 0x2004; 0x2005; 0x2006; 0x2007; 0x2008;
   0x2009; 0x200A; 0x2028; 0x2029; 0x202F; 0x205F; 0x3000]%N.

(** [unicode.IsSpace(r)] *)
Definition IsSpace (r : N) : bool := existsb (N.eqb r) White_Space.

(** [utf8.AppendRune]: the UTF-8 encoding of a code point. *)
Definition EncodeRune (r : N) : list ascii :=
  (if r <? 0x80 then [ascii_of_N r]
   else if r <? 0x800 then
     [ascii_of_N (0xC0 + r / 64); ascii_of_N (0x80 + r mod 64)]
   else if r <? 0x10000 then
     [ascii_of_N (0xE0 + r / 4096); ascii_of_N (0x80 + r / 64 mod 64);
      ascii_of_N (0x80 + r mod 64)]
   else
     [ascii_of_N (0xF0 + r / 262144); ascii_of_N (0x80 + r / 4096 mod 64);
      ascii_of_N (0x80 + r / 64 mod 64); ascii_of_N (0x80 + r mod 64)])%N.

(** The byte sequences that decode to a white space character.  A byte
    string starts (ends) with a white space character, in the sense of
    [utf8.DecodeRuneInString] ([utf8.DecodeLastRuneInString]), exactly when
    one of these is a prefix (suffix) of it: ill-formed and overlong
    sequences decode to U+FFFD, which is no white space. *)
Definition space_encodings : list (list ascii) := map EncodeRune White_Space.

End unicode.

Section Trim.

Variable table : list (list ascii).

Fixpoint stripPrefix (p s : list ascii) : option (list ascii) :=
  match p, s with
  | [], _ => Some s
  | _ :: _, [] => None
  | a :: p', b :: s' => if Ascii.eqb a b then stripPrefix p' s' else None
  end.

(** Removes one leading element of the table, the first that fits. *)
Fixpoint stripOne (t : list (list ascii)) (s : list ascii)
  : option (list ascii) :=
  match t with
  | [] => None
  | p :: t' =>
      match p, stripPrefix p s with
      | _ :: _, Some s' => Some s'
      | _, _ => stripOne t' s
      end
  end.

Fixpoint trim_n (n : nat) (s : list ascii) : list ascii :=
  match n with
  | O => s
  | S n' =>
      match stripOne table s with
      | Some s' => trim_n n' s'
      | None => s
      end
  end.

(** Removes leading table elements for as long as there is one; a step
    removes a byte at least, so [length s] steps are enough. *)
Definition trim (s : list ascii) : list ascii := trim_n (List.length s) s.

End Trim.

(** [strings.TrimLeftFunc(s, unicode.IsSpace)] on the bytes of [s] *)
Definition TrimLeft (s : list ascii) : list ascii :=
  trim unicode.space_encodings s.

(** [strings.TrimRightFunc(s, unicode.IsSpace)] on the bytes of [s] *)
Definition TrimRight (s : list ascii) : list ascii :=
  rev (trim (map (@rev ascii) unicode.space_encodings) (rev s)).

(** [strings.TrimSpace(s)]: "all leading and trailing white space removed,
    as defined by Unicode". *)
Definition strings_TrimSpace (s : string) : string :=
  string_of_list_ascii (TrimRight (TrimLeft (list_ascii_of_string s))).

(* ===================================================================== *)
(** * package net/url: query values and URLs *)
(* ===================================================================== *)

Module url.

Definition hexdigit (n : N) : ascii :=
  ascii_of_N (if (n <? 10)%N then 48 + n else 55 + n)%N.

Definition in_range (lo hi c : ascii) : bool :=
  ((N_of_ascii lo <=? N_of_ascii c) && (N_of_ascii c <=? N_of_ascii hi))%N.

Definition unhex (c : ascii) : option N :=
  let n := N_of_ascii c in
  if in_range "0" "9" c then Some (n - 48)%N
  else if in_range "a" "f" c then Some (n - 87)%N
  else if in_range "A" "F" c then Some (n - 55)%N
  else None.

(** [shouldEscape(c, encodeQueryComponent)] negated: letters, digits and
    [-_.~] are written as they are. *)
Definition unreserved (c : ascii) : bool :=
  in_range "a" "z" c || in_range "A" "Z" c || in_range "0" "9" c
  || Ascii.eqb c "-" || Ascii.eqb c "_" || Ascii.eqb c "." || Ascii.eqb c "~".

(** [url.QueryEscape] *)
Fixpoint QueryEscape (s : string) : string :=
  match s with
  | EmptyString => EmptyString
  | String c s' =>
      if Ascii.eqb c " " then String "+" (QueryEscape s')
      else if unreserved c then String c (QueryEscape s')
      else
        let n := N_of_ascii c in
        String "%" (String (hexdigit (n / 16)) (String (hexdigit (n mod 16))
          (QueryEscape s')))
  end.

(** [url.QueryUnescape]; [None] is its [EscapeError]. *)
Fixpoint QueryUnescape (s : string) : option string :=
  match s with
  | EmptyString => Some EmptyString
  | String c s' =>
      if Ascii.eqb c "%" then
        match s' with
        | String a (String b rest) =>
            match unhex a, unhex b, QueryUnescape rest with
            | Some h, Some l, Some r => Some (String (ascii_of_N (16 * h + l)) r)
            | _, _, _ => None
            end
        | _ => None
        end
      else
        match QueryUnescape s' with
        | Some r => Some (String (if Ascii.eqb c "+" then " "%char else c) r)
        | None => None
        end
  end.

(** [url.Values], a Go [map[string][]string]: a list of bindings with
    distinct keys, whose order stands for the map's unspecified one. *)
Definition Values : Type := list (string * list string).

(** [v[key]] *)
Fixpoint lookup (v : Values) (key : string) : list string :=
  match v with
  | [] => []
  | (k, vs) :: v' => if String.eqb k key then vs else lookup v' key
  end.

(** [v.Add(key, value)]: [v[key] = append(v[key], value)] *)
Fixpoint Add (v : Values) (key value : string) : Values :=
  match v with
  | [] => [(key, [value])]
  | (k, vs) :: v' =>
      if String.eqb k key then (k, (vs ++ [value])%list) :: v'
      else (k, vs) :: Add v' key value
  end.

(** One [&]-separated piece of a query string, as [parseQuery] treats it:
    skipped when it is empty, has a semicolon or does not unescape. *)
Definition parsePiece (m : Values) (piece : string) : Values :=
  if contains_byte ";" piece then m
  else if String.eqb piece "" then m
  else
    let '(key, value) := strings_Cut "=" piece in
    match QueryUnescape key with
    | None => m
    | Some key' =>
        match QueryUnescape value with
        | None => m
        | Some value' => Add m key' value'
        end
    end.

(** [url.ParseQuery], its error dropped, as [URL.Query] does. *)
Definition ParseQuery (query : string) : Values :=
  fold_left parsePiece (split_on "&" query) [].

Fixpoint insert_sorted (b : string * list string) (v : Values) : Values :=
  match v with
  | [] => [b]
  | b' :: v' =>
      if String.leb (fst b) (fst b') then b :: v
      else b' :: insert_sorted b v'
  end.

(** The bindings in the byte order of their keys. *)
Definition sorted (v : Values) : Values := fold_right insert_sorted [] v.

(** The [key=value] pieces [Values.Encode] writes, in its order. *)
Definition pieces (v : Values) : list string :=
  flat_map
    (fun b => map (fun x => QueryEscape (fst b) ++ "=" ++ QueryEscape x) (snd b))
    (sorted v).

(** [v.Encode()]: "URL encoded" form, sorted by key. *)
Definition Encode (v : Values) : string := String.concat "&" (pieces v).

(** The fields of [url.URL] that the package reads or writes. *)
Record URL : Type := mkURL {
  Scheme : string;
  Host : string;
  Path : string;
  RawQuery : string
}.

(** [u.Query()] *)
Definition Query (u : URL) : Values := ParseQuery (RawQuery u).

Definition set_RawQuery (u : URL) (q : string) : URL :=
  mkURL (Scheme u) (Host u) (Path u) q.

Definition set_Path (u : URL) (p : string) : URL :=
  mkURL (Scheme u) (Host u) p (RawQuery u).

End url.

(* ===================================================================== *)
(** * The schedule formatter *)
(* ===================================================================== *)

Definition validateReps (reps : string) : option error :=
  if strings_HasPrefix reps "R" then None
  else Some (errors_New "Repetitions string not formatted correctly").

Definition validateInterval (interval : string) : option error :=
  if strings_HasPrefix interval "P" then None
  else Some (errors_New "Interval string not formatted correctly").

Definition formatTimeString (t : time.Time) : string :=
  if time.IsZero t then "" else time.Format_RFC3339Nano t.

(** [FormatSchedule] returns the pair (schedule, err) as the Go function
    does; [fmt.Sprintf("%s/%s/%s", a, b, c)] is the concatenation. *)
Definition FormatSchedule (startTime : time.Time) (interval reps : string)
  : string * option error :=
  match validateInterval interval with
  | Some err => ("", Some err)
  | None =>
      match validateReps reps with
      | Some err => ("", Some err)
      | None =>
          (reps ++ "/" ++ formatTimeString startTime ++ "/" ++ interval, None)
      end
  end.

Definition RunOnceNowSchedule : string := "R1//PT2M".


(* ===================================================================== *)
(** * Domain model *)
(* ===================================================================== *)

(** A Go [float32], as its IEEE 754 binary32 bit pattern. *)
Definition float32 : Type := Z.

(** Neither an infinity nor a NaN: the exponent field is not all ones. *)
Definition float32_finite (f : float32) : bool :=
  negb (Z.land (Z.shiftr f 23) 255 =? 255).

(** A Go [map[string]string]: bindings with distinct keys. *)
Definition StringMap : Type := list (string * string).

Record Container : Type := mkContainer {
  Type_ : string;
  Image : string;
  Network : string;
  Volumes : list StringMap;
  Parameters : list StringMap
}.

Record Job : Type := mkJob {
  Name : string;
  Command : string;
  Shell : bool;
  Epsilon : string;
  Executor : string;
  ExecutorFlags : string;
  Retries : Z;
  Owner : string;
  OwnerName : string;
  Description : string;
  Async : bool;
  SuccessCount : Z;
  ErrorCount : Z;
  LastSuccess : string;
  LastError : string;
  CPUs : float32;
  Disk : float32;
  Mem : float32;
  Disabled : bool;
  SoftError : bool;
  DataProcessingJobType : bool;
  ErrorsSinceLastSuccess : Z;
  URIs : list string;
  EnvironmentVariables : list StringMap;
  Arguments_ : list string;
  HighPriority : bool;
  RunAsUser : string;
  Container_ : option Container;
  Schedule : string;
  ScheduleTimeZone : string;
  Constraints_ : list (list string);
  Parents : list string
}.

Definition Jobs : Type := list Job.

(** [job.Schedule = s] *)
Definition set_Schedule (j : Job) (s : string) : Job :=
  mkJob (Name j) (Command j) (Shell j) (Epsilon j) (Executor j)
    (ExecutorFlags j) (Retries j) (Owner j) (OwnerName j) (Description j)
    (Async j) (SuccessCount j) (ErrorCount j) (LastSuccess j) (LastError j)
    (CPUs j) (Disk j) (Mem j) (Disabled j) (SoftError j)
    (DataProcessingJobType j) (ErrorsSinceLastSuccess j) (URIs j)
    (EnvironmentVariables j) (Arguments_ j) (HighPriority j) (RunAsUser j)
    (Container_ j) s (ScheduleTimeZone j) (Constraints_ j) (Parents j).

(** [job.Epsilon = e] *)
Definition set_Epsilon (j : Job) (e : string) : Job :=
  mkJob (Name j) (Command j) (Shell j) e (Executor j)
    (ExecutorFlags j) (Retries j) (Owner j) (OwnerName j) (Description j)
    (Async j) (SuccessCount j) (ErrorCount j) (LastSuccess j) (LastError j)
    (CPUs j) (Disk j) (Mem j) (Disabled j) (SoftError j)
    (DataProcessingJobType j) (ErrorsSinceLastSuccess j) (URIs j)
    (EnvironmentVariables j) (Arguments_ j) (HighPriority j) (RunAsUser j)
    (Container_ j) (Schedule j) (ScheduleTimeZone j) (Constraints_ j)
    (Parents j).

Definition ChronosAPIJob : string := "scheduler/job".
Definition ChronosAPIJobs : string := "scheduler/jobs".
Definition ChronosAPIJobsSearch : string := "scheduler/jobs/search".
Definition ChronosAPIKillJobTask : string := "scheduler/task/kill".
Definition ChronosAPIAddScheduledJob : string := "scheduler/iso8601".
Definition ChronosAPIAddDependentJob : string := "scheduler/dependency".

(* ===================================================================== *)
(** * package net/http: requests and responses *)
(* ===================================================================== *)

Module net_http.

(** [http.Client]: the one field the package sets, in nanoseconds. *)
Record Client : Type := mkClient { Timeout : Z }.

(** An outgoing request.  [Target] holds the field values of the URL
    whose rendering [client.URL.String()] is handed to [http.NewRequest];
    [Auth] is the pair given to [SetBasicAuth]. *)
Record Request : Type := mkRequest {
  Method : string;
  Target : url.URL;
  Payload : string;
  Header : list (string * string);
  Auth : option (string * string)
}.

(** [http.Response]: [ContentLength] is -1 when the length is unknown. *)
Record Response : Type := mkResponse {
  Status : string;
  StatusCode : Z;
  ContentLength : Z;
  Body : string
}.

(** What the transport guarantees of a response to a request other than
    HEAD: a declared length of zero means there are no bytes to read. *)
Definition Response_wf (r : Response) : Prop :=
  -1 <= ContentLength r /\ (ContentLength r = 0 -> Body r = "").

(** [isTokenChar]: the characters a method name may have (RFC 7230). *)
Definition isTokenChar (c : ascii) : bool :=
  url.in_range "a" "z" c || url.in_range "A" "Z" c || url.in_range "0" "9" c
  || contains_byte c "!#$%&'*+-.^_`|~".

Fixpoint allTokenChars (s : string) : bool :=
  match s with
  | EmptyString => true
  | String c s' => isTokenChar c && allTokenChars s'
  end.

(** [validMethod] *)
Definition validMethod (m : string) : bool :=
  negb (String.eqb m "") && allTokenChars m.

(** [http.NewRequest(method, target, body)].  It fails for a method that
    is no token; its other failure, a target that does not parse, does not
    arise for the rendering of a URL whose scheme and host were parsed. *)
Definition NewRequest (method : string) (target : url.URL) (body : string)
  : error + Request :=
  if validMethod method then inr (mkRequest method target body [] None)
  else inl (RequestError ("net/http: invalid method " ++ method)).

(** [req.Header.Add(key, value)] *)
Definition Header_Add (r : Request) (key value : string) : Request :=
  mkRequest (Method r) (Target r) (Payload r)
    (Header r ++ [(key, value)])%list (Auth r).

(** [req.SetBasicAuth(username, password)] *)
Definition SetBasicAuth (r : Request) (username password : string) : Request :=
  mkRequest (Method r) (Target r) (Payload r) (Header r)
    (Some (username, password)).

End net_http.

Definition HTTPGet : string := "GET".
Definition HTTPPut : string := "PUT".
Definition HTTPDelete : string := "DELETE".
Definition HTTPPost : string := "POST".

(* ===================================================================== *)
(** * The client (chronos.go) *)
(* ===================================================================== *)

Record BasicAuth : Type := mkBasicAuth {
  Username : string;
  Password : string
}.

(** [Chronos].  [URL] is a pointer in Go: the one [url.URL] it points to
    is the value kept here, and writes through the pointer are writes to
    this field.  [http] is [None] for the nil pointer a client has before
    [Init].  [Credentials] is the field [BasicAuth]. *)
Record Chronos : Type := mkChronos {
  URL : url.URL;
  http : option net_http.Client;
  Debug : bool;
  RequestTimeout : Z;
  APIPrefix : string;
  Credentials : BasicAuth
}.

Definition set_URL (c : Chronos) (u : url.URL) : Chronos :=
  mkChronos u (http c) (Debug c) (RequestTimeout c) (APIPrefix c)
    (Credentials c).

Definition set_http (c : Chronos) (h : net_http.Client) : Chronos :=
  mkChronos (URL c) (Some h) (Debug c) (RequestTimeout c) (APIPrefix c)
    (Credentials c).

(** [DefaultChronos()]: [url.Parse("http://127.0.0.1:4400")] and the zero
    value for the fields left out. *)
Definition DefaultChronos : Chronos :=
  mkChronos (url.mkURL "http" "127.0.0.1:4400" "" "") None false 5 ""
    (mkBasicAuth "" "").

(** The caller's result slot, Go's [result interface{}]: nil, or a
    pointer to a [Jobs] value, which is all the package passes. *)
Inductive Slot : Type :=
| NilSlot
| JobsSlot (js : Jobs).

(** What the run of an operation leaves behind besides its results. *)
Inductive Event : Type :=
| EvDo (r : net_http.Request)
| EvDecode (body : string).

Record World : Type := mkWorld {
  client : Chronos;
  trace : list Event
}.

(** Computations over the world; [None] is a run-time panic. *)
Definition M (A : Type) : Type := World -> option (A * World).

Definition ret {A} (a : A) : M A := fun w => Some (a, w).

Definition bind {A B} (m : M A) (f : A -> M B) : M B :=
  fun w => match m w with
           | Some (a, w') => f a w'
           | None => None
           end.

Definition panic {A} : M A := fun _ => None.

Definition getClient : M Chronos := fun w => Some (client w, w).

Definition putClient (c : Chronos) : M unit :=
  fun w => Some (tt, mkWorld c (trace w)).

Definition emit (e : Event) : M unit :=
  fun w => Some (tt, mkWorld (client w) (trace w ++ [e])%list).

Declare Scope go_scope.
Delimit Scope go_scope with go.
Notation "x <- m ;; k" := (bind m (fun x => k))
  (at level 61, m at next level, right associativity) : go_scope.
Notation "m ;;; k" := (bind m (fun _ => k))
  (at level 61, right associativity) : go_scope.
Local Open Scope go_scope.

(** The capabilities the package consumes. *)
Record Capabilities : Type := mkCapabilities {
  (** [http.Client.Do]: one round trip, or a transport error. *)
  Do : net_http.Client -> net_http.Request -> error + net_http.Response;
  (** [encoding/json] decoding a non-blank text into the slot: the slot
      afterwards and the error, if any. *)
  Unmarshal : string -> Slot -> Slot * option error;
  (** The JSON text [encoding/json] writes for a job it can encode. *)
  encodeJob : Job -> string
}.

(** Only JSON white space: space, tab, line feed, carriage return. *)
Fixpoint json_blank (s : string) : bool :=
  match s with
  | EmptyString => true
  | String c s' =>
      (Ascii.eqb c " " || Ascii.eqb c "009" || Ascii.eqb c "010"
       || Ascii.eqb c "013") && json_blank s'
  end.

Section Pipeline.

Variable cap : Capabilities.

(** [json.Marshal(job)].  Its one failure for a [Job] is a float that is
    an infinity or a NaN ("unsupported value"). *)
Definition json_Marshal (j : Job) : error + string :=
  if float32_finite (CPUs j) && float32_finite (Disk j)
     && float32_finite (Mem j)
  then inr (encodeJob cap j)
  else inl (UnsupportedValueError "json: unsupported value").

(** What [json.NewDecoder(body).Decode(result)] gives: a stream with no
    value in it is [io.EOF], and the slot is not written. *)
Definition Decoder_Decode (body : string) (result : Slot)
  : Slot * option error :=
  if json_blank body then (result, Some io_EOF)
  else Unmarshal cap body result.

Definition json_Decode (body : string) (result : Slot)
  : M (Slot * option error) :=
  emit (EvDecode body) ;;;
  ret (Decoder_Decode body result).

Definition buildURL (uri : string) (queryParams : StringMap) : M unit :=
  c <- getClient ;;
  let query :=
    fold_left (fun q kv => url.Add q (fst kv) (snd kv)) queryParams
      (url.Query (URL c)) in
  let u := url.set_RawQuery (URL c) (url.Encode query) in
  let u := url.set_Path u (path.Join [APIPrefix c; uri]) in
  putClient (set_URL c u).

Definition applyRequestHeaders (c : Chronos) (request : net_http.Request)
  : net_http.Request :=
  let request := net_http.Header_Add request "Content-Type" "application/json" in
  let request := net_http.Header_Add request "Accept" "application/json" in
  net_http.SetBasicAuth request (Username (Credentials c))
    (Password (Credentials c)).

Definition newRequest (method body : string) : M (error + net_http.Request) :=
  c <- getClient ;;
  match net_http.NewRequest method (URL c) body with
  | inl err => ret (inl err)
  | inr request => ret (inr (applyRequestHeaders c request))
  end.

(** [httpCall]: [inl err] is Go's [(0, nil, err)], [inr (status, response)]
    is [(status, response, nil)]. *)
Definition httpCall (method body : string)
  : M (error + Z * net_http.Response) :=
  r <- newRequest method body ;;
  match r with
  | inl err => ret (inl err)
  | inr request =>
      c <- getClient ;;
      match http c with
      | None => panic
      | Some h =>
          emit (EvDo request) ;;;
          match Do cap h request with
          | inl err => ret (inl err)
          | inr response => ret (inr (net_http.StatusCode response, response))
          end
      end
  end.

(** The status classification at the end of [apiCall]. *)
Definition classify (status : Z) (response : net_http.Response)
  : Z * option error :=
  if (status <? 200) || (status >? 299)
  then (status, Some (errors_New (net_http.Status response)))
  else (status, None).

(** [apiCall] returns Go's [(int, error)] and the slot as the call left
    it. *)
Definition apiCall (method uri : string) (queryParams : StringMap)
    (body : string) (result : Slot) : M (Z * option error * Slot) :=
  buildURL uri queryParams ;;;
  r <- httpCall method body ;;
  match r with
  | inl err => ret (0, Some err, result)
  | inr (status, response) =>
      if negb (net_http.ContentLength response =? 0) then
        d <- json_Decode (net_http.Body response) result ;;
        match snd d with
        | Some err => ret (status, Some err, fst d)
        | None => ret (classify status response, fst d)
        end
      else ret (classify status response, result)
  end.

Definition apiGet (uri : string) (queryParams : StringMap) (result : Slot)
  : M (option error * Slot) :=
  r <- apiCall HTTPGet uri queryParams "" result ;;
  ret (snd (fst r), snd r).

Definition apiDelete (uri : string) (queryParams : StringMap) (result : Slot)
  : M (option error * Slot) :=
  r <- apiCall HTTPDelete uri queryParams "" result ;;
  ret (snd (fst r), snd r).

Definition apiPut (uri : string) (queryParams : StringMap) (result : Slot)
  : M (option error * Slot) :=
  r <- apiCall HTTPPut uri queryParams "" result ;;
  ret (snd (fst r), snd r).

Definition apiPost (uri : string) (queryParams : StringMap) (postData : Job)
    (result : Slot) : M (option error * Slot) :=
  match json_Marshal postData with
  | inl err => ret (Some err, result)
  | inr postDataString =>
      r <- apiCall HTTPPost uri queryParams postDataString result ;;
      ret (snd (fst r), snd r)
  end.

(** The slot [new(Jobs)] after the call, read back as [*jobs]. *)
Definition deref (s : Slot) : Jobs :=
  match s with
  | NilSlot => []
  | JobsSlot js => js
  end.

(** [Jobs()]: the nil slice is the empty list. *)
Definition Jobs_ : M (Jobs * option error) :=
  r <- apiGet ChronosAPIJobs [] (JobsSlot []) ;;
  match fst r with
  | Some err => ret ([], Some err)
  | None => ret (deref (snd r), None)
  end.

Definition SearchJobs (name : string) : M (Jobs * option error) :=
  if (String.length (strings_TrimSpace name) =? 0)%nat then
    ret ([], Some (errors_New "[SearchJobs] missing name argument"))
  else
    let queryParams := [("name", name)] in
    r <- apiGet ChronosAPIJobsSearch queryParams (JobsSlot []) ;;
    match fst r with
    | Some err => ret ([], Some err)
    | None => ret (deref (snd r), None)
    end.

(** The operations on a [*Job] return the job as they leave it, next to
    the error. *)
Definition UnscheduleJob (job : Job) : M (option error * Job) :=
  let job := set_Schedule job "R0//PT0M" in
  r <- apiPost ChronosAPIAddScheduledJob [] job NilSlot ;;
  ret (fst r, job).

Definition DeleteJob (name : string) : M (option error) :=
  r <- apiDelete (path.Join [ChronosAPIJob; name]) [] NilSlot ;;
  ret (fst r).

Definition DeleteJobTasks (name : string) : M (option error) :=
  r <- apiDelete (path.Join [ChronosAPIKillJobTask; name]) [] NilSlot ;;
  ret (fst r).

Definition StartJob (name : string) (args : StringMap) : M (option error) :=
  r <- apiPut (path.Join [ChronosAPIJob; name]) args NilSlot ;;
  ret (fst r).

Definition AddScheduledJob (job : Job) : M (option error * Job) :=
  r <- apiPost ChronosAPIAddScheduledJob [] job NilSlot ;;
  ret (fst r, job).

Definition AddDependentJob (job : Job) : M (option error * Job) :=
  r <- apiPost ChronosAPIAddDependentJob [] job NilSlot ;;
  ret (fst r, job).

Definition RunOnceNowJob (job : Job) : M (option error * Job) :=
  let job := set_Schedule job RunOnceNowSchedule in
  let job := set_Epsilon job "PT10M" in
  AddScheduledJob job.

(** [time.Duration(n) * time.Second] in 64-bit two's complement. *)
Definition seconds (n : Z) : Z :=
  (n * 1000000000 + 2 ^ 63) mod 2 ^ 64 - 2 ^ 63.

(** [Init] returns the error; the client it also returns is the receiver,
    the world's client. *)
Definition Init : M (option error) :=
  c <- getClient ;;
  putClient (set_http c (net_http.mkClient (seconds (RequestTimeout c)))) ;;;
  r <- Jobs_ ;;
  match snd r with
  | Some err =>
      ret (Some (errors_New ("Could not reach chronos cluster: " ++ Error err)))
  | None => ret None
  end.

End Pipeline.

(* ===================================================================== *)
(** * Notions the properties are stated with *)
(* ===================================================================== *)

(** The requests a trace records, in the order they were sent. *)
Fixpoint requests (t : list Event) : list net_http.Request :=
  match t with
  | [] => []
  | EvDo r :: t' => r :: requests t'
  | EvDecode _ :: t' => requests t'
  end.

(** The bodies a trace records a decoding attempt for. *)
Fixpoint decodes (t : list Event) : list string :=
  match t with
  | [] => []
  | EvDo _ :: t' => decodes t'
  | EvDecode b :: t' => b :: decodes t'
  end.

(** The URL [buildURL] leaves in a client. *)
Definition nextURL (c : Chronos) (uri : string) (queryParams : StringMap)
  : url.URL :=
  url.mkURL (url.Scheme (URL c)) (url.Host (URL c))
    (path.Join [APIPrefix c; uri])
    (url.Encode
       (fold_left (fun q kv => url.Add q (fst kv) (snd kv)) queryParams
          (url.Query (URL c)))).

(** The request a call of [apiCall] hands to the transport. *)
Definition requestOf (c : Chronos) (method uri : string)
    (queryParams : StringMap) (body : string) : net_http.Request :=
  net_http.mkRequest method (nextURL c uri queryParams) body
    [("Content-Type", "application/json"); ("Accept", "application/json")]
    (Some (Username (Credentials c), Password (Credentials c))).

(** A URL made of the configured base, one call's resource path and that
    call's query parameters and nothing else. *)
Definition freshTarget (c : Chronos) (uri : string) (queryParams : StringMap)
  : url.URL :=
  url.mkURL (url.Scheme (URL c)) (url.Host (URL c))
    (path.Join [APIPrefix c; uri])
    (url.Encode
       (fold_left (fun q kv => url.Add q (fst kv) (snd kv)) queryParams [])).

(** A status code in [200,299]. *)
Definition success (status : Z) : Prop := 200 <= status <= 299.

(** The grammar [R<digits-or-empty>]. *)
Definition isDigit (c : ascii) : bool := url.in_range "0" "9" c.

Fixpoint allDigits (s : string) : bool :=
  match s with
  | EmptyString => true
  | String c s' => isDigit c && allDigits s'
  end.

Definition repsGrammar (reps : string) : bool :=
  match reps with
  | String c rest => Ascii.eqb c "R" && allDigits rest
  | EmptyString => false
  end.

(** A name that is empty or made of white space characters only: a
    sequence of UTF-8 encoded characters with the property White_Space. *)
Inductive WhiteSpaceOnly : list ascii -> Prop :=
| ws_nil : WhiteSpaceOnly []
| ws_cons r s :
    unicode.IsSpace r = true -> WhiteSpaceOnly s ->
    WhiteSpaceOnly (unicode.EncodeRune r ++ s)%list.

Definition blank (name : string) : Prop :=
  WhiteSpaceOnly (list_ascii_of_string name).

(** A concatenation of elements of a table of byte strings. *)
Inductive Concats (table : list (list ascii)) : list ascii -> Prop :=
| concats_nil : Concats table []
| concats_app p s :
    In p table -> Concats table s -> Concats table (p ++ s)%list.

(** The two messages a validation failure of [FormatSchedule] carries. *)
Definition validationError (e : option error) : Prop :=
  e = Some (errors_New "Repetitions string not formatted correctly")
  \/ e = Some (errors_New "Interval string not formatted correctly").

(** [FormatSchedule] fails exactly when [reps] is outside the grammar
    [R<digits-or-empty>] or [interval] does not begin with [P]. *)
Definition failsOutsideGrammar (t : time.Time) (interval reps : string) : Prop :=
  validationError (snd (FormatSchedule t interval reps))
  <-> (repsGrammar reps = false \/ strings_HasPrefix interval "P" = false).

(** The world a call of [apiCall] leaves when the transport was used. *)
Definition called (w : World) (uri : string) (queryParams : StringMap)
    (t : list Event) : World :=
  mkWorld (set_URL (client w) (nextURL (client w) uri queryParams)) t.

(** The outcome of a call is the one the status alone dictates. *)
Definition classifiedByStatus (response : net_http.Response)
    (outcome : Z * option error) : Prop :=
  fst outcome = net_http.StatusCode response
  /\ (snd outcome = None <-> success (net_http.StatusCode response))
  /\ (~ success (net_http.StatusCode response) ->
      snd outcome = Some (errors_New (net_http.Status response))).

(** Every field but [schedule] and [epsilon] is the same in both jobs. *)
Definition otherFieldsKept (j j' : Job) : Prop :=
  Name j' = Name j /\ Command j' = Command j /\ Shell j' = Shell j
  /\ Executor j' = Executor j /\ ExecutorFlags j' = ExecutorFlags j
  /\ Retries j' = Retries j /\ Owner j' = Owner j
  /\ OwnerName j' = OwnerName j /\ Description j' = Description j
  /\ Async j' = Async j /\ SuccessCount j' = SuccessCount j
  /\ ErrorCount j' = ErrorCount j /\ LastSuccess j' = LastSuccess j
  /\ LastError j' = LastError j /\ CPUs j' = CPUs j /\ Disk j' = Disk j
  /\ Mem j' = Mem j /\ Disabled j' = Disabled j
  /\ SoftError j' = SoftError j
  /\ DataProcessingJobType j' = DataProcessingJobType j
  /\ ErrorsSinceLastSuccess j' = ErrorsSinceLastSuccess j
  /\ URIs j' = URIs j /\ EnvironmentVariables j' = EnvironmentVariables j
  /\ Arguments_ j' = Arguments_ j /\ HighPriority j' = HighPriority j
  /\ RunAsUser j' = RunAsUser j /\ Container_ j' = Container_ j
  /\ ScheduleTimeZone j' = ScheduleTimeZone j
  /\ Constraints_ j' = Constraints_ j /\ Parents j' = Parents j.

(** A job [encoding/json] can write: no float is an infinity or a NaN. *)
Definition encodable (j : Job) : bool :=
  float32_finite (CPUs j) && float32_finite (Disk j) && float32_finite (Mem j).

(** The one request of [w'] that [w] does not have is a [method] request
    to the resource [uri] under the client's prefix, carrying [body]. *)
Definition sendsOne (w w' : World) (method uri body : string) : Prop :=
  exists r,
    requests (trace w') = (requests (trace w) ++ [r])%list
    /\ net_http.Method r = method
    /\ url.Path (net_http.Target r) = path.Join [APIPrefix (client w); uri]
    /\ net_http.Payload r = body.

(** What [Init] makes of the probe's error. *)
Definition wrapped (e : option error) : option error :=
  match e with
  | Some err =>
      Some (errors_New ("Could not reach chronos cluster: " ++ Error err))
  | None => None
  end.

(** Every byte of [s] is one of the bytes of [allowed]. *)
Fixpoint all_in (allowed s : string) : bool :=
  match s with
  | EmptyString => true
  | String c s' => contains_byte c allowed && all_in allowed s'
  end.

(** The bytes an RFC 3339 time is written with. *)
Definition timeBytes : string := "0123456789-+:.TZ".

(** A path element that [path.Clean] keeps as it is: not empty, not [.]
    or [..], and free of slashes. *)
Definition plain (seg : string) : bool :=
  negb (String.eqb seg "") && negb (String.eqb seg ".")
  && negb (String.eqb seg "..") && negb (contains_byte "/" seg).

(** The text of one query parameter. *)
Definition piece (key value : string) : string :=
  url.QueryEscape key ++ "=" ++ url.QueryEscape value.

(** The client's URL query holds [value] under [key]. *)
Definition holds (c : Chronos) (key value : string) : Prop :=
  In value (url.lookup (url.Query (URL c)) key).

(** The query string of a request has the piece [key=value], escaped. *)
Definition carries (r : net_http.Request) (key value : string) : Prop :=
  exists ps,
    url.RawQuery (net_http.Target r) = String.concat "&" ps
    /\ In (url.QueryEscape key ++ "=" ++ url.QueryEscape value) ps.


(* ===================================================================== *)
(** * Test doubles *)
(* ===================================================================== *)

Module Stub.

(** A decoder that knows one text, the empty array. *)
Definition Unmarshal (body : string) (s : Slot) : Slot * option error :=
  match s with
  | NilSlot => (NilSlot, Some (UnmarshalError "json: Unmarshal(nil)"))
  | JobsSlot js =>
      if String.eqb body "[]" then (JobsSlot [], None)
      else (JobsSlot js, Some (SyntaxError "invalid character"))
  end.

Definition encodeJob (j : Job) : string :=
  Name j ++ ";" ++ Schedule j ++ ";" ++ Epsilon j.

(** A server with one answer to everything. *)
Definition answering (resp : net_http.Response) : Capabilities :=
  mkCapabilities (fun _ _ => inr resp) Unmarshal encodeJob.

(** A server that cannot be reached. *)
Definition unreachable : Capabilities :=
  mkCapabilities (fun _ _ => inl (TransportError "connection refused"))
    Unmarshal encodeJob.

Definition ok_empty : net_http.Response :=
  net_http.mkResponse "200 OK" 200 0 "".

Definition ok_list : net_http.Response :=
  net_http.mkResponse "200 OK" 200 2 "[]".

Definition ok_garbage : net_http.Response :=
  net_http.mkResponse "200 OK" 200 1 "{".

Definition ok_chunked_empty : net_http.Response :=
  net_http.mkResponse "200 OK" 200 (-1) "".

Definition error_list : net_http.Response :=
  net_http.mkResponse "500 Internal Server Error" 500 2 "[]".

Definition error_garbage : net_http.Response :=
  net_http.mkResponse "500 Internal Server Error" 500 1 "{".

Definition error_empty : net_http.Response :=
  net_http.mkResponse "500 Internal Server Error" 500 0 "".

(** The default client after [Init] set its transport. *)
Definition ready : World :=
  mkWorld (set_http DefaultChronos (net_http.mkClient (seconds 5))) [].

(** The test's client, with the API prefix [v1], before [Init]. *)
Definition v1 : World :=
  mkWorld
    (mkChronos (url.mkURL "http" "127.0.0.1:4400" "" "") None false 5 "v1"
       (mkBasicAuth "" ""))
    [].

Definition job : Job :=
  mkJob "backup" "tar cz /data" true "" "" "" 2 "ops" "" "" false 0 0 "" ""
    0 0 0 false false false 0 [] [] [] false "" None "R/2023-01-01T00:00:00Z/P1D"
    "" [] [].

(** The same job asking for NaN cpus (bit pattern 0x7FC00000). *)
Definition nan_job : Job :=
  mkJob "backup" "tar cz /data" true "" "" "" 2 "ops" "" "" false 0 0 "" ""
    0x7FC00000 0 0 false false false 0 [] [] [] false "" None
    "R/2023-01-01T00:00:00Z/P1D" "" [] [].

End Stub.

Module Sample.

(** A decoder that reads every text as a list of one job. *)
Definition Unmarshal (body : string) (s : Slot) : Slot * option error :=
  match s with
  | NilSlot => (NilSlot, Some (UnmarshalError "json: Unmarshal(nil)"))
  | JobsSlot _ => (JobsSlot [Stub.job], None)
  end.

(** A server that answers everything with [resp] and a one-job list. *)
Definition listing (resp : net_http.Response) : Capabilities :=
  mkCapabilities (fun _ _ => inr resp) Unmarshal Stub.encodeJob.

Definition error_with_list : net_http.Response :=
  net_http.mkResponse "503 Service Unavailable" 503 (-1) "[{}]".

Definition ok_blank : net_http.Response :=
  net_http.mkResponse "200 OK" 200 2 "  ".

(** A client with credentials and a two-element prefix, its transport
    set. *)
Definition secured : World :=
  mkWorld
    (mkChronos (url.mkURL "https" "chronos.example:443" "" "") 
       (Some (net_http.mkClient (seconds 30))) false 30 "api/v1"
       (mkBasicAuth "ops" "s3cret"))
    [].


(** The default client after a search for [a]: its URL still has the
    path and the query of that call. *)
Definition searched : World :=
  mkWorld
    (mkChronos
       (url.mkURL "http" "127.0.0.1:4400" "scheduler/jobs/search" "name=a")
       (Some (net_http.mkClient (seconds 5))) false 5 "" (mkBasicAuth "" ""))
    [].

End Sample.

(* ===================================================================== *)
(** * The schedule formatter *)
(* ===================================================================== *)

Lemma HasPrefix_cons (c : ascii) (s : string) :
  strings_HasPrefix s (String c "") = true <-> exists rest, s = String c rest.
Proof.
  unfold strings_HasPrefix. destruct s as [|d rest]; simpl.
  - split; [discriminate | intros [r H]; discriminate].
  - destruct (ascii_dec c d) as [->|Hne].
    + split; [intros _; now exists rest | intros _; destruct rest; reflexivity].
    + split; [discriminate | intros [r H]; congruence].
Qed.

Lemma repsGrammar_HasPrefix (reps : string) :
  repsGrammar reps = true -> strings_HasPrefix reps "R" = true.
Proof.
  destruct reps as [|c rest]; intros H; simpl in H; [discriminate|].
  apply andb_true_iff in H. destruct H as [H _].
  apply Ascii.eqb_eq in H. subst c.
  apply (proj2 (HasPrefix_cons "R" (String "R" rest))). now exists rest.
Qed.

Lemma validateReps_None (reps : string) :
  validateReps reps = None <-> strings_HasPrefix reps "R" = true.
Proof.
  unfold validateReps. destruct (strings_HasPrefix reps "R");
    split; congruence.
Qed.

Lemma validateInterval_None (interval : string) :
  validateInterval interval = None <-> strings_HasPrefix interval "P" = true.
Proof.
  unfold validateInterval. destruct (strings_HasPrefix interval "P");
    split; congruence.
Qed.

(** C2, as stated, fails: the repetitions [Rx] are outside the grammar
    [R<digits-or-empty>], the interval [P1D] begins with [P], and
    [FormatSchedule] succeeds with [Rx//P1D]. *)
Lemma FormatSchedule_accepts_Rx :
  FormatSchedule time.zero "P1D" "Rx" = ("Rx//P1D", None)
  /\ repsGrammar "Rx" = false
  /\ ~ failsOutsideGrammar time.zero "P1D" "Rx".
Proof.
  split; [reflexivity | split; [reflexivity|]].
  unfold failsOutsideGrammar. intros [_ H].
  destruct H as [H|H]; [now left | discriminate H | discriminate H].
Qed.

(** C2, amended: [FormatSchedule] fails with a validation error exactly
    when [reps] does not begin with [R] or [interval] does not begin with
    [P], whatever else the arguments hold, and otherwise succeeds; so it
    succeeds for every [reps] made of [R] and digits and every [interval]
    beginning with [P]. *)
Theorem FormatSchedule_fails_iff (t : time.Time) (interval reps : string) :
  (validationError (snd (FormatSchedule t interval reps))
   <-> (strings_HasPrefix reps "R" = false
        \/ strings_HasPrefix interval "P" = false))
  /\ (snd (FormatSchedule t interval reps) = None
      <-> (strings_HasPrefix reps "R" = true
           /\ strings_HasPrefix interval "P" = true))
  /\ (repsGrammar reps = true -> strings_HasPrefix interval "P" = true ->
      snd (FormatSchedule t interval reps) = None).
Proof.
  assert (Hmain : snd (FormatSchedule t interval reps) = None
      <-> (strings_HasPrefix reps "R" = true
           /\ strings_HasPrefix interval "P" = true)).
  { unfold FormatSchedule, validateInterval, validateReps.
    destruct (strings_HasPrefix interval "P"), (strings_HasPrefix reps "R");
      simpl; split; try tauto; try discriminate; intros [? ?]; discriminate. }
  split; [|split; [exact Hmain|]].
  - unfold validationError, FormatSchedule, validateInterval, validateReps.
    destruct (strings_HasPrefix interval "P"), (strings_HasPrefix reps "R");
      simpl; split; intros H; auto;
      try (destruct H as [H|H]; discriminate H).
  - intros Hg Hp. apply Hmain. split; [now apply repsGrammar_HasPrefix | exact Hp].
Qed.

Lemma FormatSchedule_fails_iff_witness :
  repsGrammar "R5" = true /\ strings_HasPrefix "PT1H" "P" = true
  /\ snd (FormatSchedule (time.Unix 1672531200 0 0) "PT1H" "R5") = None.
Proof.
  split; [reflexivity | split; [reflexivity|]].
  apply (proj2 (proj2 (FormatSchedule_fails_iff
                         (time.Unix 1672531200 0 0) "PT1H" "R5")));
    reflexivity.
Defined.

(** Path composition, as the repository's test expects it. *)
Example Join_without_prefix :
  path.Join [""; "scheduler/jobs"] = "scheduler/jobs".
Proof. reflexivity. Qed.

Example Join_with_prefix :
  path.Join ["v1"; "scheduler/jobs"] = "v1/scheduler/jobs".
Proof. reflexivity. Qed.

(** The zero instant renders as nothing, any other instant in RFC 3339. *)
Lemma formatTimeString_cases (t : time.Time) :
  (time.sec t = 0 /\ time.nsec t = 0 -> formatTimeString t = "")
  /\ (~ (time.sec t = 0 /\ time.nsec t = 0) ->
      formatTimeString t = time.Format_RFC3339Nano t).
Proof.
  unfold formatTimeString, time.IsZero. split.
  - intros [-> ->]. reflexivity.
  - intros H. destruct (Z.eqb_spec (time.sec t) 0), (Z.eqb_spec (time.nsec t) 0);
      simpl; tauto.
Qed.

(** Renderings of [time.RFC3339Nano]: whole seconds carry no fraction,
    a fraction loses its trailing zeros and keeps up to nine digits, UTC
    is [Z] and any other offset is signed hours and minutes. *)
Example Format_utc :
  time.Format_RFC3339Nano (time.Unix 1672531200 0 0) = "2023-01-01T00:00:00Z".
Proof. reflexivity. Qed.

Example Format_offset :
  time.Format_RFC3339Nano (time.Unix 1672531200 120000000 (-19800))
  = "2022-12-31T18:30:00.12-05:30".
Proof. reflexivity. Qed.

Example Format_nanosecond :
  time.Format_RFC3339Nano (time.Unix 951782399 1 3600)
  = "2000-02-29T00:59:59.000000001+01:00".
Proof. reflexivity. Qed.

Lemma appendZone_utc (off : Z) : time.appendZone off = "Z" <-> off = 0.
Proof.
  unfold time.appendZone. destruct (Z.eqb_spec off 0) as [->|Hne].
  - tauto.
  - split; [|tauto]. destruct (Z.quot off 60 <? 0); simpl; discriminate.
Qed.

(** C3: for [reps] and [interval] accepted by validation, [FormatSchedule]
    returns [reps], a slash, the rendered start and a slash and
    [interval]; the rendered start is empty for the zero instant and the
    RFC 3339 text with nanoseconds and zone offset for any other. *)
Theorem FormatSchedule_output (t : time.Time) (interval reps : string) :
  validateInterval interval = None ->
  validateReps reps = None ->
  exists renderedStart,
    FormatSchedule t interval reps
    = (reps ++ "/" ++ renderedStart ++ "/" ++ interval, None)
    /\ (time.sec t = 0 /\ time.nsec t = 0 -> renderedStart = "")
    /\ (~ (time.sec t = 0 /\ time.nsec t = 0) ->
        renderedStart = time.Format_RFC3339Nano t).
Proof.
  intros Hi Hr. exists (formatTimeString t).
  unfold FormatSchedule. rewrite Hi, Hr.
  split; [reflexivity | apply formatTimeString_cases].
Qed.

Lemma FormatSchedule_output_witness :
  FormatSchedule (time.Unix 1672531200 0 0) "PT1H" "R5"
  = ("R5/2023-01-01T00:00:00Z/PT1H", None).
Proof.
  destruct (FormatSchedule_output (time.Unix 1672531200 0 0) "PT1H" "R5")
    as [s [H [_ Hs]]]; [reflexivity | reflexivity |].
  rewrite H, Hs; [reflexivity|].
  intros [Hsec _]. discriminate Hsec.
Defined.

(* ===================================================================== *)
(** * Trimming white space *)
(* ===================================================================== *)

Section TrimFacts.

Variable table : list (list ascii).

Lemma stripPrefix_Some (p s s' : list ascii) :
  stripPrefix p s = Some s' -> s = (p ++ s')%list.
Proof.
  revert s. induction p as [|a p IH]; intros s H; simpl in H.
  - now inversion H.
  - destruct s as [|b s]; [discriminate|].
    destruct (Ascii.eqb_spec a b) as [->|]; [|discriminate].
    simpl. f_equal. now apply IH.
Qed.

Lemma stripOne_Some (t : list (list ascii)) (s s' : list ascii) :
  stripOne t s = Some s' ->
  exists p, In p t /\ p <> [] /\ s = (p ++ s')%list.
Proof.
  induction t as [|p t IH]; [discriminate|].
  cbn [stripOne]. destruct p as [|a p].
  - intros H. destruct (IH H) as [q [Hq Hs]]. exists q.
    split; [now right | exact Hs].
  - destruct (stripPrefix (a :: p) s) as [r|] eqn:E.
    + intros H. injection H as ->. exists (a :: p).
      split; [now left | split; [discriminate | now apply stripPrefix_Some]].
    + intros H. destruct (IH H) as [q [Hq Hs]]. exists q.
      split; [now right | exact Hs].
Qed.

Lemma stripOne_nil (t : list (list ascii)) : stripOne t [] = None.
Proof.
  induction t as [|p t IH]; simpl; [reflexivity|]. now destruct p.
Qed.

Lemma stripOne_shorter (s s' : list ascii) :
  stripOne table s = Some s' -> (List.length s' < List.length s)%nat.
Proof.
  intros H. destruct (stripOne_Some _ _ H) as [p [_ [Hp ->]]].
  rewrite length_app. destruct p; [congruence | simpl; lia].
Qed.

Lemma trim_n_nil (n : nat) (s : list ascii) :
  trim_n table n s = [] -> Concats table s.
Proof.
  revert s. induction n as [|n IH]; intros s; simpl.
  - intros ->. constructor.
  - destruct (stripOne table s) as [s'|] eqn:E.
    + intros H. destruct (stripOne_Some _ _ E) as [p [Hp [_ ->]]].
      constructor; auto.
    + intros ->. constructor.
Qed.

(** The steps allotted are enough: nothing is left to remove. *)
Lemma trim_n_done (n : nat) (s : list ascii) :
  (List.length s <= n)%nat -> stripOne table (trim_n table n s) = None.
Proof.
  revert s. induction n as [|n IH]; intros s Hn; simpl.
  - destruct s; [apply stripOne_nil | simpl in Hn; lia].
  - destruct (stripOne table s) as [s'|] eqn:E; [|exact E].
    apply IH. apply stripOne_shorter in E. lia.
Qed.

Lemma trim_n_stable (n : nat) (s : list ascii) :
  stripOne table s = None -> trim_n table n s = s.
Proof. intros H. destruct n; simpl; [reflexivity | now rewrite H]. Qed.

Lemma Concats_app (a b : list ascii) :
  Concats table a -> Concats table b -> Concats table (a ++ b)%list.
Proof.
  induction 1 as [|p s Hp Hs IH]; intros Hb; simpl; [exact Hb|].
  rewrite <- app_assoc. constructor; auto.
Qed.

(** No table element hides the start of another. *)
Hypothesis prefix_free :
  forall p rest, In p table -> stripOne table (p ++ rest)%list = Some rest.

Lemma Concats_trim_n (s : list ascii) :
  Concats table s ->
  forall n, (List.length s <= n)%nat -> trim_n table n s = [].
Proof.
  induction 1 as [|p s Hp Hs IH]; intros n Hn.
  - now apply trim_n_stable, stripOne_nil.
  - destruct n as [|n]; simpl.
    + destruct p; simpl in *; [|lia]. destruct s; simpl in *; [reflexivity | lia].
    + rewrite (prefix_free p s Hp). apply IH.
      pose proof (prefix_free p s Hp) as Hlt.
      apply stripOne_shorter in Hlt. lia.
Qed.

End TrimFacts.

Lemma Concats_rev (table : list (list ascii)) (u : list ascii) :
  Concats (map (@rev ascii) table) u -> Concats table (rev u).
Proof.
  induction 1 as [|p s Hp Hs IH]; simpl; [constructor|].
  rewrite rev_app_distr. apply Concats_app; [exact IH|].
  apply in_map_iff in Hp. destruct Hp as [q [<- Hq]].
  rewrite rev_involutive. rewrite <- (app_nil_r q). constructor; [exact Hq | constructor].
Qed.

Lemma space_encodings_prefix_free (p rest : list ascii) :
  In p unicode.space_encodings ->
  stripOne unicode.space_encodings (p ++ rest)%list = Some rest.
Proof.
  intros H. unfold unicode.space_encodings, unicode.White_Space in H.
  simpl in H.
  repeat (destruct H as [<-|H]; [reflexivity|]). contradiction.
Qed.

Lemma WhiteSpaceOnly_Concats (s : list ascii) :
  WhiteSpaceOnly s <-> Concats unicode.space_encodings s.
Proof.
  split; induction 1 as [|p s' Hp Hs IH]; try constructor; auto.
  - apply in_map. unfold unicode.IsSpace in Hp.
    apply existsb_exists in Hp. destruct Hp as [x [Hx Heq]].
    apply N.eqb_eq in Heq. now subst x.
  - apply in_map_iff in Hp. destruct Hp as [r [<- Hr]].
    constructor; [|exact IH]. unfold unicode.IsSpace.
    apply existsb_exists. exists r. split; [exact Hr | apply N.eqb_refl].
Qed.

Lemma TrimLeft_nil (s : list ascii) : TrimLeft s = [] <-> WhiteSpaceOnly s.
Proof.
  rewrite WhiteSpaceOnly_Concats. unfold TrimLeft, trim. split.
  - apply trim_n_nil.
  - intros H. apply Concats_trim_n; auto using space_encodings_prefix_free.
Qed.

Lemma TrimRight_nil (s : list ascii) :
  TrimRight s = [] -> Concats unicode.space_encodings s.
Proof.
  unfold TrimRight, trim. intros H.
  apply (f_equal (@rev ascii)) in H. rewrite rev_involutive in H.
  change (rev (@nil ascii)) with (@nil ascii) in H.
  apply trim_n_nil, Concats_rev in H. now rewrite rev_involutive in H.
Qed.

(** [TrimSpace] leaves nothing exactly of the strings that are white
    space throughout. *)
Lemma TrimSpace_empty (name : string) :
  (String.length (strings_TrimSpace name) =? 0)%nat = true <-> blank name.
Proof.
  unfold strings_TrimSpace, blank.
  set (l := list_ascii_of_string name). split.
  - intros H. apply Nat.eqb_eq in H.
    assert (Hr : TrimRight (TrimLeft l) = []).
    { destruct (TrimRight (TrimLeft l)); [reflexivity | discriminate H]. }
    apply TrimRight_nil in Hr.
    assert (Hl : TrimLeft (TrimLeft l) = []).
    { apply TrimLeft_nil, WhiteSpaceOnly_Concats, Hr. }
    unfold TrimLeft at 1 in Hl. unfold trim in Hl.
    rewrite trim_n_stable in Hl.
    + now apply TrimLeft_nil.
    + unfold TrimLeft, trim. now apply trim_n_done.
  - intros H. apply TrimLeft_nil in H. rewrite H. reflexivity.
Qed.

(* ===================================================================== *)
(** * Query values *)
(* ===================================================================== *)

Lemma lookup_Add_same (m : url.Values) (k v : string) :
  In v (url.lookup (url.Add m k v) k).
Proof.
  induction m as [|[k' vs] m IH]; simpl.
  - rewrite String.eqb_refl. now left.
  - destruct (String.eqb k' k) eqn:E; simpl; rewrite E; [|exact IH].
    apply in_or_app. right. now left.
Qed.

Lemma lookup_Add_keep (m : url.Values) (k v k' x : string) :
  In x (url.lookup m k') -> In x (url.lookup (url.Add m k v) k').
Proof.
  induction m as [|[k0 vs] m IH]; simpl; [contradiction|].
  destruct (String.eqb k0 k) eqn:Ek; simpl;
    destruct (String.eqb k0 k') eqn:Ek'; auto.
  intros H. apply in_or_app. now left.
Qed.

Lemma lookup_fold_Add (params : StringMap) (m : url.Values) (k v : string) :
  In (k, v) params \/ In v (url.lookup m k) ->
  In v (url.lookup
          (fold_left (fun q kv => url.Add q (fst kv) (snd kv)) params m) k).
Proof.
  revert m. induction params as [|[k' v'] params IH]; intros m H; simpl.
  - destruct H as [[]|H]; exact H.
  - apply IH. destruct H as [[H|H]|H].
    + inversion H. right. apply lookup_Add_same.
    + now left.
    + right. now apply lookup_Add_keep.
Qed.

Lemma lookup_In (m : url.Values) (k v : string) :
  In v (url.lookup m k) -> exists vs, In (k, vs) m /\ In v vs.
Proof.
  induction m as [|[k' vs] m IH]; simpl; [contradiction|].
  destruct (String.eqb_spec k' k) as [->|Hne]; intros H.
  - exists vs. split; [now left | exact H].
  - destruct (IH H) as [vs' [H1 H2]]. exists vs'. split; [now right | exact H2].
Qed.

Lemma insert_sorted_In (b : string * list string) (v : url.Values) x :
  In x (url.insert_sorted b v) <-> x = b \/ In x v.
Proof.
  induction v as [|b' v IH]; simpl.
  - split; intros [H|H]; auto.
  - destruct (String.leb (fst b) (fst b')); simpl; [split; intuition auto|].
    rewrite IH. split; intuition auto.
Qed.

Lemma sorted_In (v : url.Values) x : In x (url.sorted v) <-> In x v.
Proof.
  induction v as [|b v IH]; simpl; [tauto|].
  rewrite insert_sorted_In, IH. split; intuition auto.
Qed.

(** A value held under a key is written as a piece of the encoding. *)
Lemma pieces_lookup (m : url.Values) (k v : string) :
  In v (url.lookup m k) ->
  In (url.QueryEscape k ++ "=" ++ url.QueryEscape v) (url.pieces m).
Proof.
  intros H. destruct (lookup_In _ _ _ H) as [vs [H1 H2]].
  unfold url.pieces. apply in_flat_map. exists (k, vs).
  split; [now apply sorted_In|]. simpl.
  apply (in_map (fun x => url.QueryEscape k ++ "=" ++ url.QueryEscape x)), H2.
Qed.

(* ===================================================================== *)
(** * The request executor *)
(* ===================================================================== *)

Lemma requests_app (t u : list Event) :
  requests (t ++ u) = (requests t ++ requests u)%list.
Proof.
  induction t as [|[r|b] t IH]; simpl; [reflexivity | now f_equal | exact IH].
Qed.

Lemma decodes_app (t u : list Event) :
  decodes (t ++ u) = (decodes t ++ decodes u)%list.
Proof.
  induction t as [|[r|b] t IH]; simpl; [reflexivity | exact IH | now f_equal].
Qed.

Lemma classify_spec (status : Z) (response : net_http.Response) :
  fst (classify status response) = status
  /\ (snd (classify status response) = None <-> success status)
  /\ (~ success status ->
      snd (classify status response)
      = Some (errors_New (net_http.Status response))).
Proof.
  unfold classify, success.
  destruct (Z.ltb_spec status 200), (Z.gtb_spec status 299); simpl;
    (split; [reflexivity | split; [split; [try discriminate | ]|]]);
    intros; try lia; reflexivity.
Qed.

Section ExecutorFacts.

Variable cap : Capabilities.

Lemma buildURL_run (uri : string) (queryParams : StringMap) (w : World) :
  buildURL uri queryParams w = Some (tt, called w uri queryParams (trace w)).
Proof. reflexivity. Qed.

(** [apiCall] on a client whose transport is set, step by step. *)
Lemma apiCall_run (method uri : string) (queryParams : StringMap)
    (body : string) (result : Slot) (w : World) (h : net_http.Client) :
  http (client w) = Some h ->
  net_http.validMethod method = true ->
  apiCall cap method uri queryParams body result w =
  let req := requestOf (client w) method uri queryParams body in
  let sent := (trace w ++ [EvDo req])%list in
  match Do cap h req with
  | inl err => Some (0, Some err, result, called w uri queryParams sent)
  | inr response =>
      if net_http.ContentLength response =? 0 then
        Some (classify (net_http.StatusCode response) response, result,
              called w uri queryParams sent)
      else
        let d := Decoder_Decode cap (net_http.Body response) result in
        Some (match snd d with
              | Some err => (net_http.StatusCode response, Some err)
              | None => classify (net_http.StatusCode response) response
              end, fst d,
              called w uri queryParams
                (sent ++ [EvDecode (net_http.Body response)])%list)
  end.
Proof.
  intros Hh Hm.
  unfold apiCall, bind. rewrite buildURL_run.
  unfold httpCall, newRequest, bind, getClient, net_http.NewRequest.
  rewrite Hm. cbn [called client ret]. unfold set_URL at 1. cbn [http].
  rewrite Hh. unfold emit, ret.
  change (applyRequestHeaders _ _)
    with (requestOf (client w) method uri queryParams body).
  cbn zeta.
  destruct (Do cap h (requestOf (client w) method uri queryParams body))
    as [err|response]; [reflexivity|].
  destruct (net_http.ContentLength response =? 0); [reflexivity|].
  cbn [negb]. unfold json_Decode, bind, emit, ret.
  destruct (Decoder_Decode cap (net_http.Body response) result) as [s [e|]];
    reflexivity.
Qed.

(** A call on a ready client sends one request, the one [requestOf]
    describes, and leaves the client [buildURL] made. *)
Lemma apiCall_effect (method uri : string) (queryParams : StringMap)
    (body : string) (result : Slot) (w : World) (h : net_http.Client) :
  http (client w) = Some h ->
  net_http.validMethod method = true ->
  exists outcome slot t,
    apiCall cap method uri queryParams body result w
    = Some (outcome, slot, called w uri queryParams t)
    /\ requests t
       = (requests (trace w)
            ++ [requestOf (client w) method uri queryParams body])%list.
Proof.
  intros Hh Hm.
  rewrite (@apiCall_run method uri queryParams body result w h Hh Hm).
  cbn zeta.
  destruct (Do cap h (requestOf (client w) method uri queryParams body))
    as [err|response].
  - do 3 eexists. split; [reflexivity | now rewrite requests_app].
  - destruct (net_http.ContentLength response =? 0).
    + do 3 eexists. split; [reflexivity | now rewrite requests_app].
    + do 3 eexists. split; [reflexivity|].
      rewrite !requests_app. simpl. now rewrite app_nil_r.
Qed.

End ExecutorFacts.

Section ExecutorProperties.

Variable cap : Capabilities.
Variables (method uri : string) (queryParams : StringMap) (body : string).
Variable result : Slot.
Variables (w : World) (h : net_http.Client).

Hypothesis transport_set : http (client w) = Some h.
Hypothesis method_valid : net_http.validMethod method = true.

Local Abbreviation req := (requestOf (client w) method uri queryParams body).

(** C4: when the round trip gives a response with a non-empty body, the
    body is decoded into the result slot right after the round trip and
    before the status is looked at: a decoding failure is the error of the
    call whatever the status, also in [200,299]; and when decoding works
    and the status is outside [200,299], the slot holds the decoded value
    and the error is the status line. *)
Theorem apiCall_decodes_first (response : net_http.Response) :
  Do cap h req = inr response ->
  net_http.Response_wf response ->
  net_http.Body response <> "" ->
  let d := Decoder_Decode cap (net_http.Body response) result in
  exists outcome w',
    apiCall cap method uri queryParams body result w
    = Some (outcome, fst d, w')
    /\ trace w' = (trace w ++ [EvDo req; EvDecode (net_http.Body response)])%list
    /\ (forall e, snd d = Some e ->
        outcome = (net_http.StatusCode response, Some e))
    /\ (snd d = None -> ~ success (net_http.StatusCode response) ->
        outcome = (net_http.StatusCode response,
                   Some (errors_New (net_http.Status response))))
    /\ (snd d = None -> success (net_http.StatusCode response) ->
        outcome = (net_http.StatusCode response, None)).
Proof.
  intros HDo [_ Hwf] Hbody d.
  rewrite (@apiCall_run cap method uri queryParams body result w h
             transport_set method_valid).
  cbn zeta. rewrite HDo.
  destruct (Z.eqb_spec (net_http.ContentLength response) 0) as [E|_];
    [elim Hbody; auto|].
  fold d. eexists. eexists. split; [reflexivity|].
  split; [cbn [called trace]; now rewrite <- app_assoc|].
  destruct (classify_spec (net_http.StatusCode response) response)
    as [H1 [H2 H3]].
  destruct (classify (net_http.StatusCode response) response) as [s e] eqn:Ec.
  simpl in H1, H2, H3. subst s.
  split; [intros e0 He; now rewrite He|].
  split; intros He Hs; rewrite He.
  - now rewrite (H3 Hs).
  - now rewrite (proj2 H2 Hs).
Qed.

(** C5, amended: a completed round trip always returns the raw status
    code; when the response declares no content, or its body decodes
    without error, the call succeeds exactly when the status is in
    [200,299] and fails with the status line otherwise.  (A body that fails
    to decode makes the call fail whatever the status.) *)
Theorem apiCall_classifies (response : net_http.Response) :
  Do cap h req = inr response ->
  exists outcome slot w',
    apiCall cap method uri queryParams body result w = Some (outcome, slot, w')
    /\ fst outcome = net_http.StatusCode response
    /\ (net_http.ContentLength response = 0
        \/ snd (Decoder_Decode cap (net_http.Body response) result) = None ->
        classifiedByStatus response outcome).
Proof.
  intros HDo.
  rewrite (@apiCall_run cap method uri queryParams body result w h
             transport_set method_valid).
  cbn zeta. rewrite HDo.
  pose proof (classify_spec (net_http.StatusCode response) response) as Hc.
  destruct (Z.eqb_spec (net_http.ContentLength response) 0) as [E|E].
  - do 3 eexists. split; [reflexivity|]. split; [apply Hc|]. intros _. exact Hc.
  - destruct (Decoder_Decode cap (net_http.Body response) result) as [s [e|]].
    + do 3 eexists. split; [reflexivity|]. split; [reflexivity|].
      simpl. intros [H|H]; [contradiction | discriminate].
    + do 3 eexists. split; [reflexivity|]. split; [apply Hc|]. intros _. exact Hc.
Qed.

(** C7, amended: when the server answers 200 and the response declares a
    content length of zero -- the test the executor makes for a response
    without body -- the call succeeds, the slot is the caller's and no
    decoding is attempted. *)
Theorem apiCall_no_content (response : net_http.Response) :
  Do cap h req = inr response ->
  net_http.StatusCode response = 200 ->
  net_http.ContentLength response = 0 ->
  exists w',
    apiCall cap method uri queryParams body result w
    = Some (200, None, result, w')
    /\ trace w' = (trace w ++ [EvDo req])%list
    /\ decodes (trace w') = decodes (trace w).
Proof.
  intros HDo Hs Hl.
  rewrite (@apiCall_run cap method uri queryParams body result w h
             transport_set method_valid).
  cbn zeta. rewrite HDo, Hl, Hs. change (0 =? 0) with true. cbv iota.
  eexists. split; [reflexivity|]. cbn [called trace]. split; [reflexivity|].
  rewrite decodes_app. simpl. apply app_nil_r.
Qed.

(** C10: a response whose non-empty body fails to decode and whose status
    is outside [200,299] makes the call fail with the decoding error, not
    with the status line; the raw status code is returned with it. *)
Theorem apiCall_decode_error_wins (response : net_http.Response) (e : error) :
  Do cap h req = inr response ->
  net_http.Response_wf response ->
  net_http.Body response <> "" ->
  snd (Decoder_Decode cap (net_http.Body response) result) = Some e ->
  ~ success (net_http.StatusCode response) ->
  exists slot w',
    apiCall cap method uri queryParams body result w
    = Some (net_http.StatusCode response, Some e, slot, w').
Proof.
  intros HDo [_ Hwf] Hbody He _.
  rewrite (@apiCall_run cap method uri queryParams body result w h
             transport_set method_valid).
  cbn zeta. rewrite HDo.
  destruct (Z.eqb_spec (net_http.ContentLength response) 0) as [E|_];
    [elim Hbody; auto|].
  rewrite He. do 2 eexists. reflexivity.
Qed.

(** C1, amended: a call leaves the client's API prefix, timeout,
    credentials and transport and the scheme and host of its URL as they
    were; it writes the path and the query of the client's one URL: the path
    becomes the API prefix joined with this call's resource path, whatever
    the path was before, the query holds each of this call's parameters,
    and the one request of the call goes to that URL. *)
Theorem apiCall_frame :
  exists outcome slot w',
    apiCall cap method uri queryParams body result w = Some (outcome, slot, w')
    /\ APIPrefix (client w') = APIPrefix (client w)
    /\ RequestTimeout (client w') = RequestTimeout (client w)
    /\ Credentials (client w') = Credentials (client w)
    /\ http (client w') = http (client w)
    /\ url.Scheme (URL (client w')) = url.Scheme (URL (client w))
    /\ url.Host (URL (client w')) = url.Host (URL (client w))
    /\ url.Path (URL (client w')) = path.Join [APIPrefix (client w); uri]
    /\ (exists ps, url.RawQuery (URL (client w')) = String.concat "&" ps
        /\ forall k v, In (k, v) queryParams ->
           In (url.QueryEscape k ++ "=" ++ url.QueryEscape v) ps)
    /\ (exists r, requests (trace w') = (requests (trace w) ++ [r])%list
        /\ net_http.Method r = method
        /\ net_http.Payload r = body
        /\ net_http.Target r = URL (client w')).
Proof.
  destruct (@apiCall_effect cap method uri queryParams body result w h
              transport_set method_valid) as [outcome [slot [t [Hrun Ht]]]].
  rewrite Hrun. do 3 eexists. split; [reflexivity|].
  cbn [called client trace set_URL APIPrefix RequestTimeout Credentials http URL].
  repeat (split; [reflexivity|]). split.
  - eexists. split; [reflexivity|]. intros k v Hkv.
    apply pieces_lookup, lookup_fold_Add. now left.
  - exists req. rewrite Ht. repeat split.
Qed.

End ExecutorProperties.

(* ===================================================================== *)
(** * The operation facade *)
(* ===================================================================== *)

Section FacadeProperties.

Variable cap : Capabilities.

Lemma apiPost_sends (uri : string) (job : Job) (w : World)
    (h : net_http.Client) :
  http (client w) = Some h ->
  encodable job = true ->
  exists e w',
    apiPost cap uri [] job NilSlot w = Some (e, w')
    /\ sendsOne w w' "POST" uri (encodeJob cap job).
Proof.
  intros Hh He. unfold apiPost, json_Marshal. fold (encodable job). rewrite He.
  destruct (@apiCall_effect cap HTTPPost uri [] (encodeJob cap job) NilSlot
              w h Hh eq_refl) as [outcome [slot [t [Hrun Ht]]]].
  unfold bind. rewrite Hrun. do 2 eexists. split; [reflexivity|].
  eexists. cbn [called trace]. split; [exact Ht|]. repeat split.
Qed.

(** C6, amended: for every job that JSON can encode, [RunOnceNowJob] sends
    one POST to [scheduler/iso8601] whose body is the job with schedule
    [R1//PT2M] and epsilon [PT10M], and [UnscheduleJob] one whose body is
    the job with schedule [R0//PT0M]; every other field is the caller's. *)
Theorem overwrite_schedule_then_post (job : Job) (w : World)
    (h : net_http.Client) :
  http (client w) = Some h ->
  encodable job = true ->
  (exists e j w',
     RunOnceNowJob cap job w = Some (e, j, w')
     /\ Schedule j = "R1//PT2M" /\ Epsilon j = "PT10M"
     /\ otherFieldsKept job j
     /\ sendsOne w w' "POST" "scheduler/iso8601" (encodeJob cap j))
  /\ (exists e j w',
        UnscheduleJob cap job w = Some (e, j, w')
        /\ Schedule j = "R0//PT0M" /\ Epsilon j = Epsilon job
        /\ otherFieldsKept job j
        /\ sendsOne w w' "POST" "scheduler/iso8601" (encodeJob cap j)).
Proof.
  intros Hh He. split.
  - destruct (@apiPost_sends ChronosAPIAddScheduledJob
                (set_Epsilon (set_Schedule job RunOnceNowSchedule) "PT10M")
                w h Hh He) as [e [w' [Hrun Hs]]].
    unfold RunOnceNowJob, AddScheduledJob, bind. rewrite Hrun.
    do 3 eexists. split; [reflexivity|].
    split; [reflexivity|]. split; [reflexivity|].
    split; [unfold otherFieldsKept; simpl; tauto | exact Hs].
  - destruct (@apiPost_sends ChronosAPIAddScheduledJob
                (set_Schedule job "R0//PT0M") w h Hh He)
      as [e [w' [Hrun Hs]]].
    unfold UnscheduleJob, bind. rewrite Hrun.
    do 3 eexists. split; [reflexivity|].
    split; [reflexivity|]. split; [reflexivity|].
    split; [unfold otherFieldsKept; simpl; tauto | exact Hs].
Qed.

(** C8: a name that is empty or white space throughout makes [SearchJobs]
    fail with its validation error, the world untouched: no request built
    or sent, no client state written.  Any other name makes it send one
    GET to [scheduler/jobs/search] whose query holds [name=<name>]. *)
Theorem SearchJobs_blank_or_one_get (name : string) (w : World) :
  (blank name ->
   SearchJobs cap name w
   = Some ([], Some (errors_New "[SearchJobs] missing name argument"), w))
  /\ (~ blank name ->
      forall h, http (client w) = Some h ->
      exists r w' req,
        SearchJobs cap name w = Some (r, w')
        /\ requests (trace w') = (requests (trace w) ++ [req])%list
        /\ net_http.Method req = "GET"
        /\ url.Path (net_http.Target req)
           = path.Join [APIPrefix (client w); "scheduler/jobs/search"]
        /\ exists ps,
             url.RawQuery (net_http.Target req) = String.concat "&" ps
             /\ In ("name=" ++ url.QueryEscape name) ps).
Proof.
  unfold SearchJobs. split.
  - intros Hb. apply TrimSpace_empty in Hb. now rewrite Hb.
  - intros Hb h Hh.
    destruct (String.length (strings_TrimSpace name) =? 0)%nat eqn:E;
      [elim Hb; now apply TrimSpace_empty|].
    destruct (@apiCall_effect cap HTTPGet ChronosAPIJobsSearch
                [("name", name)] "" (JobsSlot []) w h Hh eq_refl)
      as [outcome [slot [t [Hrun Ht]]]].
    unfold apiGet, bind. rewrite Hrun. unfold ret.
    exists (match snd outcome with
            | Some err => ([], Some err)
            | None => (deref slot, None)
            end).
    do 2 eexists. split; [cbn [fst snd]; destruct (snd outcome); reflexivity|].
    cbn [called trace]. split; [exact Ht|].
    split; [reflexivity|]. split; [reflexivity|].
    eexists. split; [reflexivity|].
    apply (@pieces_lookup _ "name" name), lookup_fold_Add. left. now left.
Qed.

(** C9: [Init] runs the list-jobs operation once, on the client with its
    transport set: one GET to [scheduler/jobs] is sent.  Whatever error the
    operation returns, [Init] returns an error whose text is the prefix
    [Could not reach chronos cluster: ] followed by that error's text; when
    the operation returns none, neither does [Init]. *)
Theorem Init_probes_once (w : World) :
  let w0 :=
    mkWorld
      (set_http (client w)
         (net_http.mkClient (seconds (RequestTimeout (client w)))))
      (trace w) in
  exists js e w',
    Jobs_ cap w0 = Some (js, e, w')
    /\ Init cap w = Some (wrapped e, w')
    /\ sendsOne w w' "GET" "scheduler/jobs" ""
    /\ (forall err, e = Some err ->
        exists e', wrapped e = Some e'
          /\ Error e' = "Could not reach chronos cluster: " ++ Error err)
    /\ (e = None -> wrapped e = None).
Proof.
  intros w0.
  destruct (@apiCall_effect cap HTTPGet ChronosAPIJobs [] "" (JobsSlot [])
              w0 _ eq_refl eq_refl) as [outcome [slot [t [Hrun Ht]]]].
  assert (HJ : Jobs_ cap w0
               = Some (match snd outcome with
                       | Some err => ([], Some err)
                       | None => (deref slot, None)
                       end, called w0 ChronosAPIJobs [] t)).
  { unfold Jobs_, apiGet, bind. rewrite Hrun. unfold ret. cbn [fst snd].
    destruct (snd outcome); reflexivity. }
  exists (fst (match snd outcome with
               | Some err => ([], Some err)
               | None => (deref slot, None)
               end)), (snd outcome), (called w0 ChronosAPIJobs [] t).
  split; [rewrite HJ; destruct (snd outcome); reflexivity|].
  split.
  - unfold Init, bind, getClient, putClient. fold w0. rewrite HJ.
    destruct (snd outcome); reflexivity.
  - split; [|split].
    + eexists. cbn [called trace]. split; [exact Ht|]. repeat split.
    + intros err ->. eexists. split; reflexivity.
    + intros ->. reflexivity.
Qed.

End FacadeProperties.

(* ===================================================================== *)
(** * Runs on the test doubles *)
(* ===================================================================== *)

(** The repository's test: [Init] against a server answering 500. *)
Example Init_against_500 :
  exists w',
    Init (Stub.answering Stub.error_empty) Stub.v1
    = Some (Some (errors_New
                    "Could not reach chronos cluster: 500 Internal Server Error"),
            w')
    /\ map (fun r => url.Path (net_http.Target r)) (requests (trace w'))
       = ["v1/scheduler/jobs"].
Proof. eexists. split; reflexivity. Qed.

Example Init_unreachable :
  exists w',
    Init Stub.unreachable Stub.v1
    = Some (Some (errors_New
                    "Could not reach chronos cluster: connection refused"),
            w').
Proof. eexists. reflexivity. Qed.

(** C1, as stated, fails.  On the default client, [SearchJobs "a"] followed
    by [Jobs()]: the first call rewrites the client's URL, and the request
    of the second call, which has no query parameter of its own, goes out
    with the first call's [name=a]. *)
Lemma query_carried_over :
  exists r1 w1 r2 w2 req,
    SearchJobs (Stub.answering Stub.ok_list) "a" Stub.ready = Some (r1, w1)
    /\ URL (client w1) <> URL (client Stub.ready)
    /\ Jobs_ (Stub.answering Stub.ok_list) w1 = Some (r2, w2)
    /\ requests (trace w2) = (requests (trace w1) ++ [req])%list
    /\ net_http.Target req
       = url.mkURL "http" "127.0.0.1:4400" "scheduler/jobs" "name=a"
    /\ net_http.Target req
       <> freshTarget (client Stub.ready) "scheduler/jobs" [].
Proof.
  do 5 eexists. split; [cbv; reflexivity|]. split; [discriminate|].
  split; [cbv; reflexivity|]. split; [reflexivity|]. split; [reflexivity|].
  discriminate.
Qed.

Lemma apiCall_frame_witness :
  exists outcome slot w',
    apiCall (Stub.answering Stub.ok_list) "GET" "scheduler/jobs/search"
      [("name", "a b")] "" (JobsSlot []) Stub.ready
    = Some (outcome, slot, w')
    /\ APIPrefix (client w') = ""
    /\ url.Host (URL (client w')) = "127.0.0.1:4400"
    /\ url.Path (URL (client w')) = "scheduler/jobs/search".
Proof.
  destruct (@apiCall_frame (Stub.answering Stub.ok_list) "GET"
              "scheduler/jobs/search" [("name", "a b")] "" (JobsSlot [])
              Stub.ready (net_http.mkClient (seconds 5)) eq_refl eq_refl)
    as [o [s [w' [H [H1 [_ [_ [_ [_ [H2 [H3 _]]]]]]]]]]].
  exists o, s, w'. repeat split; assumption.
Defined.

Lemma apiCall_decodes_first_witness :
  exists outcome w',
    apiCall (Stub.answering Stub.error_list) "GET" "scheduler/jobs" [] ""
      (JobsSlot [Stub.job]) Stub.ready
    = Some (outcome, JobsSlot [], w')
    /\ outcome = (500, Some (errors_New "500 Internal Server Error")).
Proof.
  destruct (@apiCall_decodes_first (Stub.answering Stub.error_list) "GET"
              "scheduler/jobs" [] "" (JobsSlot [Stub.job]) Stub.ready
              (net_http.mkClient (seconds 5)) eq_refl eq_refl
              Stub.error_list eq_refl)
    as [o [w' [H [_ [_ [H1 _]]]]]].
  - split; simpl; [lia | discriminate].
  - discriminate.
  - exists o, w'. split; [exact H|]. apply H1; [reflexivity|].
    unfold success. simpl. lia.
Defined.

(** C5, as stated, fails: the round trip completes with status 200 and a
    body that does not decode, and the call fails, with the decoder's
    error. *)
Lemma status_200_yet_failure :
  exists slot w',
    apiCall (Stub.answering Stub.ok_garbage) "GET" "scheduler/jobs" [] ""
      (JobsSlot []) Stub.ready
    = Some (200, Some (SyntaxError "invalid character"), slot, w')
    /\ success (net_http.StatusCode Stub.ok_garbage)
    /\ ~ classifiedByStatus Stub.ok_garbage
           (200, Some (SyntaxError "invalid character")).
Proof.
  do 2 eexists. split; [reflexivity|].
  assert (Hs : success (net_http.StatusCode Stub.ok_garbage))
    by (unfold success; simpl; lia).
  split; [exact Hs|]. intros [_ [[_ H] _]]. discriminate (H Hs).
Qed.

Lemma apiCall_classifies_witness :
  exists outcome slot w',
    apiCall (Stub.answering Stub.error_empty) "DELETE" "scheduler/job/x" []
      "" NilSlot Stub.ready
    = Some (outcome, slot, w')
    /\ classifiedByStatus Stub.error_empty outcome.
Proof.
  destruct (@apiCall_classifies (Stub.answering Stub.error_empty) "DELETE"
              "scheduler/job/x" [] "" NilSlot Stub.ready
              (net_http.mkClient (seconds 5)) eq_refl eq_refl
              Stub.error_empty eq_refl)
    as [o [s [w' [H [_ Hc]]]]].
  exists o, s, w'. split; [exact H|]. apply Hc. left. reflexivity.
Defined.

(** C6, as stated, fails: a job whose [cpus] is a NaN cannot be encoded;
    [RunOnceNowJob] returns the encoder's error and sends nothing. *)
Lemma nan_job_not_posted :
  exists e j,
    RunOnceNowJob (Stub.answering Stub.ok_empty) Stub.nan_job Stub.ready
    = Some (Some e, j, Stub.ready)
    /\ requests (trace Stub.ready) = [].
Proof. do 2 eexists. split; reflexivity. Qed.

Lemma overwrite_schedule_then_post_witness :
  exists e j w',
    RunOnceNowJob (Stub.answering Stub.ok_empty) Stub.job Stub.ready
    = Some (e, j, w')
    /\ Schedule j = "R1//PT2M" /\ Epsilon j = "PT10M"
    /\ Name j = "backup"
    /\ sendsOne Stub.ready w' "POST" "scheduler/iso8601" "backup;R1//PT2M;PT10M".
Proof.
  destruct (@overwrite_schedule_then_post (Stub.answering Stub.ok_empty)
              Stub.job Stub.ready (net_http.mkClient (seconds 5))
              eq_refl eq_refl)
    as [[e [j [w' [H [H1 [H2 [H3 H4]]]]]]] _].
  exists e, j, w'. split; [exact H|]. split; [exact H1|]. split; [exact H2|].
  split; [exact (proj1 H3)|].
  unfold Stub.answering, encodeJob, Stub.encodeJob in H4.
  rewrite H1, H2, (proj1 H3) in H4. exact H4.
Defined.

(** C7, as stated, fails: the server answers 200 with no body and no
    declared length (-1, as for a chunked response); the executor decodes
    the empty stream and the call fails with [io.EOF]. *)
Lemma empty_body_unknown_length :
  net_http.StatusCode Stub.ok_chunked_empty = 200
  /\ net_http.Body Stub.ok_chunked_empty = ""
  /\ net_http.Response_wf Stub.ok_chunked_empty
  /\ exists w',
       apiCall (Stub.answering Stub.ok_chunked_empty) "GET" "scheduler/jobs"
         [] "" (JobsSlot []) Stub.ready
       = Some (200, Some io_EOF, JobsSlot [], w')
       /\ decodes (trace w') = [""]
       /\ decodes (trace Stub.ready) = [].
Proof.
  split; [reflexivity|]. split; [reflexivity|]. split.
  - split; simpl; [lia | discriminate].
  - eexists. split; [reflexivity|]. split; reflexivity.
Qed.

Lemma apiCall_no_content_witness :
  exists w',
    apiCall (Stub.answering Stub.ok_empty) "GET" "scheduler/jobs" [] ""
      (JobsSlot [Stub.job]) Stub.ready
    = Some (200, None, JobsSlot [Stub.job], w')
    /\ decodes (trace w') = [].
Proof.
  destruct (@apiCall_no_content (Stub.answering Stub.ok_empty) "GET"
              "scheduler/jobs" [] "" (JobsSlot [Stub.job]) Stub.ready
              (net_http.mkClient (seconds 5)) eq_refl eq_refl
              Stub.ok_empty eq_refl eq_refl eq_refl)
    as [w' [H [_ Hd]]].
  exists w'. split; [exact H | exact Hd].
Defined.

Lemma SearchJobs_blank_or_one_get_witness :
  SearchJobs (Stub.answering Stub.ok_list) "  " Stub.ready
  = Some ([], Some (errors_New "[SearchJobs] missing name argument"),
          Stub.ready)
  /\ exists r w' req,
       SearchJobs (Stub.answering Stub.ok_list) "a b" Stub.ready
       = Some (r, w')
       /\ requests (trace w') = [req]
       /\ net_http.Method req = "GET"
       /\ url.Path (net_http.Target req) = "scheduler/jobs/search".
Proof.
  split.
  - apply (proj1 (SearchJobs_blank_or_one_get
                    (Stub.answering Stub.ok_list) "  " Stub.ready)).
    apply (@ws_cons 32%N [" "%char] eq_refl).
    apply (@ws_cons 32%N [] eq_refl). constructor.
  - destruct (proj2 (SearchJobs_blank_or_one_get
                       (Stub.answering Stub.ok_list) "a b" Stub.ready))
      with (h := net_http.mkClient (seconds 5))
      as [r [w' [req [H [H1 [H2 [H3 _]]]]]]].
    + intros Hb. apply TrimSpace_empty in Hb. discriminate Hb.
    + reflexivity.
    + exists r, w', req. repeat split; assumption.
Defined.

Lemma apiCall_decode_error_wins_witness :
  exists slot w',
    apiCall (Stub.answering Stub.error_garbage) "GET" "scheduler/jobs" [] ""
      (JobsSlot []) Stub.ready
    = Some (500, Some (SyntaxError "invalid character"), slot, w').
Proof.
  apply (@apiCall_decode_error_wins (Stub.answering Stub.error_garbage) "GET"
           "scheduler/jobs" [] "" (JobsSlot []) Stub.ready
           (net_http.mkClient (seconds 5)) eq_refl eq_refl
           Stub.error_garbage (SyntaxError "invalid character") eq_refl).
  - split; simpl; [lia | discriminate].
  - discriminate.
  - reflexivity.
  - unfold success. simpl. lia.
Defined.

(* ===================================================================== *)
(** * Byte strings *)
(* ===================================================================== *)

Lemma append_assoc_s (a b c : string) : (a ++ b) ++ c = a ++ (b ++ c).
Proof. induction a as [|x a IH]; simpl; [reflexivity | now rewrite IH]. Qed.

Lemma append_nil_r_s (a : string) : a ++ "" = a.
Proof. induction a as [|x a IH]; simpl; [reflexivity | now rewrite IH]. Qed.

Lemma contains_byte_app (c : ascii) (a b : string) :
  contains_byte c (a ++ b) = contains_byte c a || contains_byte c b.
Proof.
  induction a as [|x a IH]; simpl; [reflexivity|].
  now rewrite IH, orb_assoc.
Qed.

Lemma all_in_app (allowed a b : string) :
  all_in allowed (a ++ b) = all_in allowed a && all_in allowed b.
Proof.
  induction a as [|x a IH]; simpl; [reflexivity|].
  now rewrite IH, andb_assoc.
Qed.

(** A string made of allowed bytes has no byte that is not allowed. *)
Lemma all_in_excludes (allowed s : string) (c : ascii) :
  all_in allowed s = true -> contains_byte c allowed = false ->
  contains_byte c s = false.
Proof.
  intros Hs Hc. induction s as [|x s IH]; simpl in *; [reflexivity|].
  apply andb_true_iff in Hs. destruct Hs as [Hx Hs].
  rewrite (IH Hs), orb_false_r.
  destruct (Ascii.eqb_spec c x) as [->|]; [congruence | reflexivity].
Qed.

Lemma split_on_nosep (sep : ascii) (a : string) :
  contains_byte sep a = false -> split_on sep a = [a].
Proof.
  induction a as [|x a IH]; simpl; [reflexivity|].
  intros H. apply orb_false_iff in H. destruct H as [Hx Ha].
  rewrite Ascii.eqb_sym, Hx, (IH Ha). reflexivity.
Qed.

Lemma split_on_app (sep : ascii) (a b : string) :
  contains_byte sep a = false ->
  split_on sep (a ++ String sep b) = a :: split_on sep b.
Proof.
  induction a as [|x a IH]; simpl.
  - intros _. now rewrite Ascii.eqb_refl.
  - intros H. apply orb_false_iff in H. destruct H as [Hx Ha].
    rewrite Ascii.eqb_sym, Hx, (IH Ha). reflexivity.
Qed.

Lemma strings_Cut_app (sep : ascii) (a b : string) :
  contains_byte sep a = false ->
  strings_Cut sep (a ++ String sep b) = (a, b).
Proof.
  induction a as [|x a IH]; simpl.
  - intros _. now rewrite Ascii.eqb_refl.
  - intros H. apply orb_false_iff in H. destruct H as [Hx Ha].
    rewrite Ascii.eqb_sym, Hx, (IH Ha). reflexivity.
Qed.

(* ===================================================================== *)
(** * More on the schedule formatter *)
(* ===================================================================== *)

Lemma digits_all_in (d : Decimal.uint) :
  all_in timeBytes (NilEmpty.string_of_uint d) = true.
Proof. induction d; simpl; auto. Qed.

Lemma zeros_all_in (k : nat) : all_in timeBytes (time.zeros k) = true.
Proof. induction k; simpl; auto. Qed.

Lemma appendInt_all_in (x : Z) (width : nat) :
  all_in timeBytes (time.appendInt x width) = true.
Proof.
  unfold time.appendInt, time.digits, NilZero.string_of_uint.
  assert (H : forall d, all_in timeBytes
                          match d with
                          | Decimal.Nil => "0"
                          | _ => NilEmpty.string_of_uint d
                          end = true).
  { intros d. destruct d; try apply (digits_all_in (_ d)); reflexivity. }
  destruct (x <? 0); [cbn [all_in]; apply andb_true_iff; split;
                      [reflexivity|] |];
    rewrite all_in_app, zeros_all_in, H; reflexivity.
Qed.

Lemma trimZeros_all_in (s : string) :
  all_in timeBytes s = true -> all_in timeBytes (time.trimZeros s) = true.
Proof.
  induction s as [|c s IH]; [reflexivity|].
  cbn [all_in time.trimZeros].
  intros H. apply andb_true_iff in H. destruct H as [Hc Hs].
  specialize (IH Hs). destruct (time.trimZeros s) as [|d r].
  - destruct (Ascii.eqb c "0"); cbn [all_in]; [reflexivity | now rewrite Hc].
  - cbn [all_in] in *. now rewrite Hc, IH.
Qed.

Lemma appendNano_all_in (ns : Z) : all_in timeBytes (time.appendNano ns) = true.
Proof.
  unfold time.appendNano.
  pose proof (trimZeros_all_in _ (appendInt_all_in ns 9)) as H.
  destruct (time.trimZeros (time.appendInt ns 9)) as [|a s]; [reflexivity|].
  change (contains_byte "." timeBytes && all_in timeBytes (String a s) = true).
  now rewrite H.
Qed.

Lemma appendZone_all_in (off : Z) : all_in timeBytes (time.appendZone off) = true.
Proof.
  unfold time.appendZone. destruct (off =? 0); [reflexivity|].
  rewrite !all_in_app, !appendInt_all_in.
  destruct (Z.quot off 60 <? 0); reflexivity.
Qed.

(** The rendered start time is written with digits and [-+:.TZ] only. *)
Lemma formatTimeString_bytes (t : time.Time) :
  all_in timeBytes (formatTimeString t) = true.
Proof.
  unfold formatTimeString. destruct (time.IsZero t); [reflexivity|].
  unfold time.Format_RFC3339Nano.
  destruct (time.date ((time.sec t + time.offset t) / 86400)) as [[y m] d].
  rewrite !all_in_app, !appendInt_all_in, appendNano_all_in, appendZone_all_in.
  reflexivity.
Qed.

(** X1: a schedule built from fields without a slash can be taken apart
    again: split at the slashes it gives back the repetitions, the
    rendered start time and the interval, in this order, for every
    instant. *)
Theorem FormatSchedule_fields (t : time.Time) (interval reps : string) :
  validateInterval interval = None ->
  validateReps reps = None ->
  contains_byte "/" reps = false ->
  contains_byte "/" interval = false ->
  exists schedule,
    FormatSchedule t interval reps = (schedule, None)
    /\ split_on "/" schedule = [reps; formatTimeString t; interval].
Proof.
  intros Hi Hr Hnr Hni. unfold FormatSchedule. rewrite Hi, Hr.
  eexists. split; [reflexivity|].
  assert (Hs : contains_byte "/" (formatTimeString t) = false).
  { apply (all_in_excludes timeBytes); [apply formatTimeString_bytes | reflexivity]. }
  change (reps ++ "/" ++ formatTimeString t ++ "/" ++ interval)
    with (reps ++ String "/" (formatTimeString t ++ String "/" interval)).
  rewrite split_on_app by assumption. rewrite split_on_app by assumption.
  rewrite split_on_nosep by assumption.
  reflexivity.
Qed.

Lemma FormatSchedule_fields_witness :
  exists schedule,
    FormatSchedule (time.Unix 1672531200 500000000 7200) "P1DT12H" "R"
    = (schedule, None)
    /\ split_on "/" schedule = ["R"; "2023-01-01T02:00:00.5+02:00"; "P1DT12H"].
Proof.
  exact (@FormatSchedule_fields (time.Unix 1672531200 500000000 7200)
           "P1DT12H" "R" eq_refl eq_refl eq_refl eq_refl).
Defined.

(** X2: the interval is validated first.  An interval that does not begin
    with [P] gives the interval's error whatever the repetitions are, also
    when they are malformed too; the repetitions' error is returned only
    for a well-formed interval; a failure returns the empty schedule. *)
Theorem FormatSchedule_error_order (t : time.Time) (interval reps : string) :
  (strings_HasPrefix interval "P" = false ->
   FormatSchedule t interval reps
   = ("", Some (errors_New "Interval string not formatted correctly")))
  /\ (strings_HasPrefix interval "P" = true ->
      strings_HasPrefix reps "R" = false ->
      FormatSchedule t interval reps
      = ("", Some (errors_New "Repetitions string not formatted correctly")))
  /\ (forall e, snd (FormatSchedule t interval reps) = Some e ->
      fst (FormatSchedule t interval reps) = "").
Proof.
  unfold FormatSchedule, validateInterval, validateReps.
  destruct (strings_HasPrefix interval "P"), (strings_HasPrefix reps "R");
    repeat split; intros; try discriminate; reflexivity.
Qed.

Lemma FormatSchedule_error_order_witness :
  FormatSchedule time.zero "2M" "five"
  = ("", Some (errors_New "Interval string not formatted correctly"))
  /\ FormatSchedule time.zero "PT2M" "five"
     = ("", Some (errors_New "Repetitions string not formatted correctly")).
Proof.
  split.
  - apply (proj1 (FormatSchedule_error_order time.zero "2M" "five")).
    reflexivity.
  - apply (proj1 (proj2 (FormatSchedule_error_order time.zero "PT2M" "five")));
      reflexivity.
Defined.

(* ===================================================================== *)
(** * Path composition *)
(* ===================================================================== *)

Lemma plain_spec (seg : string) :
  plain seg = true ->
  seg <> "" /\ String.eqb seg "" = false /\ String.eqb seg "." = false
  /\ String.eqb seg ".." = false /\ contains_byte "/" seg = false.
Proof.
  unfold plain. intros H.
  repeat (apply andb_true_iff in H; destruct H as [H ?]).
  repeat match goal with
         | h : negb _ = true |- _ => apply negb_true_iff in h
         end.
  repeat split; try assumption. intros ->. discriminate.
Qed.

Lemma concat_cons (x : string) (xs : list string) :
  xs <> [] -> String.concat "/" (x :: xs) = x ++ String "/" (String.concat "/" xs).
Proof. destruct xs; [congruence | reflexivity]. Qed.

Lemma split_concat (segs : list string) :
  Forall (fun seg => plain seg = true) segs -> segs <> [] ->
  split_on "/" (String.concat "/" segs) = segs.
Proof.
  induction 1 as [|x xs Hx Hxs IH]; intros Hne; [congruence|].
  destruct (plain_spec _ Hx) as [_ [_ [_ [_ Hs]]]].
  destruct xs as [|y ys].
  - simpl. now apply split_on_nosep.
  - rewrite concat_cons by discriminate.
    rewrite split_on_app by assumption. f_equal. apply IH. discriminate.
Qed.

Lemma clean_steps_plain (rooted : bool) (segs out : list string) :
  Forall (fun seg => plain seg = true) segs ->
  fold_left (path.clean_step rooted) segs out = (rev segs ++ out)%list.
Proof.
  intros H. revert out. induction H as [|x xs Hx Hxs IH]; intros out;
    [reflexivity|].
  destruct (plain_spec _ Hx) as [_ [H1 [H2 [H3 _]]]].
  simpl. unfold path.clean_step at 2. rewrite H1, H2, H3. simpl.
  rewrite IH, <- app_assoc. reflexivity.
Qed.

Lemma concat_head (x : string) (xs : list string) :
  plain x = true ->
  exists c rest,
    String.concat "/" (x :: xs) = String c rest
    /\ Ascii.eqb "/" c = false.
Proof.
  intros Hx. destruct (plain_spec _ Hx) as [Hne [_ [_ [_ Hs]]]].
  destruct x as [|c x]; [congruence|].
  simpl in Hs. apply orb_false_iff in Hs. destruct Hs as [Hc _].
  destruct xs; simpl; eauto.
Qed.

Lemma HasPrefix_false (d c : ascii) (rest : string) :
  Ascii.eqb d c = false -> strings_HasPrefix (String c rest) (String d "") = false.
Proof.
  intros H. destruct (strings_HasPrefix (String c rest) (String d "")) eqn:E;
    [|reflexivity].
  apply HasPrefix_cons in E. destruct E as [r E]. injection E as -> _.
  now rewrite Ascii.eqb_refl in H.
Qed.

(** [path.Clean] changes nothing in a path of plain elements. *)
Lemma Clean_plain (segs : list string) :
  Forall (fun seg => plain seg = true) segs -> segs <> [] ->
  path.Clean (String.concat "/" segs) = String.concat "/" segs.
Proof.
  intros H Hne. unfold path.Clean.
  rewrite split_concat, clean_steps_plain, app_nil_r, rev_involutive
    by assumption.
  destruct segs as [|x xs]; [congruence|].
  inversion H as [|? ? Hx Hxs]; subst.
  destruct (@concat_head x xs Hx) as [c [rest [E Hc]]].
  rewrite E, HasPrefix_false by assumption. reflexivity.
Qed.

Lemma concat_app (a b : list string) :
  a <> [] -> b <> [] ->
  String.concat "/" (a ++ b)
  = String.concat "/" a ++ String "/" (String.concat "/" b).
Proof.
  intros Ha Hb. induction a as [|x xs IH]; [congruence|].
  destruct xs as [|y ys].
  - simpl app. now rewrite concat_cons.
  - change ((x :: y :: ys) ++ b)%list with (x :: ((y :: ys) ++ b))%list.
    rewrite concat_cons by discriminate.
    rewrite IH by discriminate.
    rewrite (concat_cons x (xs := y :: ys)) by discriminate.
    now rewrite append_assoc_s.
Qed.

Lemma Join_segments (prefix uri : list string) :
  Forall (fun seg => plain seg = true) prefix ->
  Forall (fun seg => plain seg = true) uri ->
  uri <> [] ->
  path.Join [String.concat "/" prefix; String.concat "/" uri]
  = String.concat "/" (prefix ++ uri).
Proof.
  intros Hp Hu Hne.
  assert (Hnu : String.eqb (String.concat "/" uri) "" = false).
  { destruct uri as [|x xs]; [congruence|]. inversion Hu; subst.
    destruct (@concat_head x xs) as [c [rest [E _]]]; [assumption|].
    now rewrite E. }
  unfold path.Join. cbn [forallb].
  rewrite (String.eqb_sym "" (String.concat "/" uri)), Hnu, andb_false_r.
  destruct prefix as [|p ps].
  - simpl. rewrite Hnu. simpl. now apply Clean_plain.
  - assert (Hnp : String.eqb (String.concat "/" (p :: ps)) "" = false).
    { inversion Hp; subst.
      destruct (@concat_head p ps) as [c [rest [E _]]]; [assumption|].
      now rewrite E. }
    cbn [path.join_buf]. rewrite String.eqb_refl. cbn [negb orb].
    rewrite Hnp. cbn [negb orb].
    change ("" ++ String.concat "/" (p :: ps)) with (String.concat "/" (p :: ps)).
    rewrite Hnp. cbn [negb orb].
    rewrite append_assoc_s.
    change ("/" ++ String.concat "/" uri) with (String "/" (String.concat "/" uri)).
    rewrite <- concat_app by (assumption || discriminate).
    apply Clean_plain; [|discriminate].
    apply Forall_app. split; assumption.
Qed.

(** X3: path composition.  A prefix and a resource path that are made of
    plain elements (no empty, [.] or [..] element) are joined with one
    slash and otherwise left as they are; with the empty prefix the
    resource path is the result. *)
Theorem Join_plain (prefix uri : list string) :
  Forall (fun seg => plain seg = true) prefix ->
  Forall (fun seg => plain seg = true) uri ->
  uri <> [] ->
  path.Join [String.concat "/" prefix; String.concat "/" uri]
  = String.concat "/" (prefix ++ uri).
Proof. apply Join_segments. Qed.

Lemma Join_plain_witness :
  path.Join ["api/v1"; "scheduler/job/backup"] = "api/v1/scheduler/job/backup"
  /\ path.Join [""; "scheduler/job/backup"] = "scheduler/job/backup".
Proof.
  split.
  - apply (@Join_plain ["api"; "v1"] ["scheduler"; "job"; "backup"]).
    + repeat constructor.
    + repeat constructor.
    + discriminate.
  - apply (@Join_plain [] ["scheduler"; "job"; "backup"]).
    + constructor.
    + repeat constructor.
    + discriminate.
Defined.

(* ===================================================================== *)
(** * More on the request executor *)
(* ===================================================================== *)

Section ExecutorEdges.

Variable cap : Capabilities.
Variables (method uri : string) (queryParams : StringMap) (body : string).
Variable result : Slot.
Variables (w : World) (h : net_http.Client).

Hypothesis transport_set : http (client w) = Some h.
Hypothesis method_valid : net_http.validMethod method = true.

Local Abbreviation req := (requestOf (client w) method uri queryParams body).

(** X4: when the transport fails, the call returns status 0 and the
    transport's error; the result slot is the caller's, nothing is decoded,
    the request was handed to the transport once, and the client's URL has
    been rewritten all the same. *)
Theorem apiCall_transport_error (err : error) :
  Do cap h req = inl err ->
  exists w',
    apiCall cap method uri queryParams body result w
    = Some (0, Some err, result, w')
    /\ trace w' = (trace w ++ [EvDo req])%list
    /\ decodes (trace w') = decodes (trace w)
    /\ URL (client w') = nextURL (client w) uri queryParams.
Proof.
  intros HDo.
  rewrite (@apiCall_run cap method uri queryParams body result w h
             transport_set method_valid).
  cbn zeta. rewrite HDo. eexists. split; [reflexivity|].
  cbn [called trace client]. split; [reflexivity|].
  split; [|reflexivity]. rewrite decodes_app. simpl. apply app_nil_r.
Qed.


(** X6: a response that declares content but whose body holds JSON white
    space only makes the call fail with [io.EOF], whatever the status, in
    [200,299] or not; the result slot is the caller's. *)
Theorem apiCall_blank_body (response : net_http.Response) :
  Do cap h req = inr response ->
  net_http.ContentLength response <> 0 ->
  json_blank (net_http.Body response) = true ->
  exists w',
    apiCall cap method uri queryParams body result w
    = Some (net_http.StatusCode response, Some io_EOF, result, w')
    /\ decodes (trace w')
       = (decodes (trace w) ++ [net_http.Body response])%list.
Proof.
  intros HDo Hl Hb.
  rewrite (@apiCall_run cap method uri queryParams body result w h
             transport_set method_valid).
  cbn zeta. rewrite HDo.
  destruct (Z.eqb_spec (net_http.ContentLength response) 0) as [E|_];
    [contradiction|].
  unfold Decoder_Decode. rewrite Hb. cbn [fst snd].
  eexists. split; [reflexivity|]. cbn [called trace].
  rewrite !decodes_app. simpl. now rewrite app_nil_r.
Qed.

End ExecutorEdges.

Lemma apiCall_transport_error_witness :
  exists w',
    apiCall Stub.unreachable "GET" "scheduler/jobs" [] "" (JobsSlot [Stub.job])
      Stub.ready
    = Some (0, Some (TransportError "connection refused"),
            JobsSlot [Stub.job], w')
    /\ url.Path (URL (client w')) = "scheduler/jobs".
Proof.
  destruct (@apiCall_transport_error Stub.unreachable "GET" "scheduler/jobs"
              [] "" (JobsSlot [Stub.job]) Stub.ready
              (net_http.mkClient (seconds 5)) eq_refl eq_refl
              (TransportError "connection refused") eq_refl)
    as [w' [H [_ [_ Hu]]]].
  exists w'. split; [exact H|]. rewrite Hu. reflexivity.
Defined.


Lemma apiCall_blank_body_witness :
  exists w',
    apiCall (Stub.answering Sample.ok_blank) "GET" "scheduler/jobs" [] ""
      (JobsSlot [Stub.job]) Stub.ready
    = Some (200, Some io_EOF, JobsSlot [Stub.job], w').
Proof.
  destruct (@apiCall_blank_body (Stub.answering Sample.ok_blank) "GET"
              "scheduler/jobs" [] "" (JobsSlot [Stub.job]) Stub.ready
              (net_http.mkClient (seconds 5)) eq_refl eq_refl
              Sample.ok_blank eq_refl)
    as [w' [H _]].
  - discriminate.
  - reflexivity.
  - exists w'. exact H.
Defined.

(* ===================================================================== *)
(** * More on the operation facade *)
(* ===================================================================== *)

Lemma split_on_nonnil (sep : ascii) (a : string) : split_on sep a <> [].
Proof.
  destruct a as [|c a]; simpl; [discriminate|].
  destruct (Ascii.eqb c sep); [discriminate|].
  destruct (split_on sep a); discriminate.
Qed.

Lemma split_on_app_any (sep : ascii) (a b : string) :
  split_on sep (a ++ String sep b) = (split_on sep a ++ split_on sep b)%list.
Proof.
  induction a as [|c a IH]; simpl.
  - now rewrite Ascii.eqb_refl.
  - destruct (Ascii.eqb c sep); [now rewrite IH|].
    rewrite IH. pose proof (@split_on_nonnil sep a) as Hn.
    destruct (split_on sep a); [congruence | reflexivity].
Qed.

Lemma clean_steps_vanish (rooted : bool) (elems out : list string) :
  Forall (fun e => e = "" \/ e = ".") elems ->
  fold_left (path.clean_step rooted) elems out = out.
Proof.
  intros H. revert out. induction H as [|e es He Hes IH]; intros out;
    [reflexivity|].
  simpl. rewrite <- (IH out) at 2. f_equal.
  destruct He as [-> | ->]; reflexivity.
Qed.

Lemma Join_two (c : ascii) (rest b : string) :
  path.Join [String c rest; b] = path.Clean (String c rest ++ "/" ++ b).
Proof.
  change (path.Join [String c rest; b])
    with (path.Clean ((String c rest ++ "/") ++ b)).
  now rewrite append_assoc_s.
Qed.

Lemma HasPrefix_head (c : ascii) (rest b : string) :
  strings_HasPrefix (String c rest ++ b) "/"
  = strings_HasPrefix (String c rest) "/".
Proof.
  change (String c rest ++ b) with (String c (rest ++ b)).
  destruct (Ascii.eqb_spec "/" c) as [<-|Hne].
  - rewrite (proj2 (HasPrefix_cons "/" (String "/" (rest ++ b))))
      by (now exists (rest ++ b)).
    rewrite (proj2 (HasPrefix_cons "/" (String "/" rest)))
      by (now exists rest).
    reflexivity.
  - apply Ascii.eqb_neq in Hne. now rewrite !HasPrefix_false.
Qed.

(** Elements that are empty or [.] at the end of a path do not count. *)
Lemma Clean_vanish (c : ascii) (rest name : string) :
  Forall (fun e => e = "" \/ e = ".") (split_on "/" name) ->
  path.Clean (String c rest ++ "/" ++ name) = path.Clean (String c rest).
Proof.
  intros Hn. unfold path.Clean.
  change ("/" ++ name) with (String "/" name).
  rewrite HasPrefix_head, split_on_app_any, fold_left_app.
  now rewrite clean_steps_vanish.
Qed.

(** Joining a path of plain elements with a name that has only empty
    and [.] elements gives the path back. *)
Lemma Join_degenerate (base : list string) (name : string) :
  Forall (fun seg => plain seg = true) base -> base <> [] ->
  Forall (fun e => e = "" \/ e = ".") (split_on "/" name) ->
  path.Join [String.concat "/" base; name] = String.concat "/" base.
Proof.
  intros Hb Hne Hn.
  destruct base as [|x xs]; [congruence|].
  assert (Hx : plain x = true) by (now inversion Hb).
  destruct (@concat_head x xs Hx) as [c [rest [E Hc]]].
  rewrite E at 1. rewrite Join_two, Clean_vanish by assumption.
  rewrite <- E. now apply Clean_plain.
Qed.

Section FacadeEdges.

Variable cap : Capabilities.

(** The error [encoding/json] gives for a job it cannot write. *)
Local Abbreviation unsupported :=
  (Some (UnsupportedValueError "json: unsupported value")).

(** X7: the listing operations hand out no jobs together with an error:
    whenever [Jobs] or [SearchJobs] returns an error, the list it returns
    is empty, also when the response body had been decoded into jobs
    before the status made the call fail. *)
Theorem listing_discards_on_error (w : World) :
  (forall js e w', Jobs_ cap w = Some (js, Some e, w') -> js = [])
  /\ (forall name js e w',
        SearchJobs cap name w = Some (js, Some e, w') -> js = []).
Proof.
  split.
  - intros js e w'. unfold Jobs_, apiGet, bind.
    destruct (apiCall cap HTTPGet ChronosAPIJobs [] "" (JobsSlot []) w)
      as [[[[st er] sl] w1]|]; [|discriminate].
    cbn. destruct er; cbn; intros H; inversion H; reflexivity.
  - intros name js e w'. unfold SearchJobs.
    destruct (String.length (strings_TrimSpace name) =? 0)%nat.
    + cbn. intros H. inversion H. reflexivity.
    + unfold apiGet, bind.
      destruct (apiCall cap HTTPGet ChronosAPIJobsSearch [("name", name)] ""
                  (JobsSlot []) w) as [[[[st er] sl] w1]|]; [|discriminate].
      cbn. destruct er; cbn; intros H; inversion H; reflexivity.
Qed.

(** X8: [Jobs] on a client whose transport is set, when the server answers
    with a status in [200,299]: a response that declares no content gives
    the empty list and no error; a body that decodes without error gives
    the decoded jobs and no error. *)
Theorem Jobs_success (w : World) (h : net_http.Client)
    (response : net_http.Response) :
  http (client w) = Some h ->
  Do cap h (requestOf (client w) "GET" "scheduler/jobs" [] "") = inr response ->
  success (net_http.StatusCode response) ->
  (net_http.ContentLength response = 0 ->
   exists w', Jobs_ cap w = Some ([], None, w'))
  /\ (forall js,
        net_http.ContentLength response <> 0 ->
        Decoder_Decode cap (net_http.Body response) (JobsSlot [])
        = (JobsSlot js, None) ->
        exists w', Jobs_ cap w = Some (js, None, w')).
Proof.
  intros Hh HDo Hs.
  destruct (classify_spec (net_http.StatusCode response) response)
    as [H1 [H2 _]].
  apply H2 in Hs.
  destruct (classify (net_http.StatusCode response) response) as [st er] eqn:Ec.
  simpl in H1, Hs. subst st er.
  unfold Jobs_, apiGet, bind.
  rewrite (@apiCall_run cap HTTPGet ChronosAPIJobs [] "" (JobsSlot []) w h
             Hh eq_refl).
  cbn zeta. unfold HTTPGet, ChronosAPIJobs. rewrite HDo. split.
  - intros Hl. rewrite Hl. change (0 =? 0) with true. cbv iota.
    rewrite Ec. eexists. reflexivity.
  - intros js Hl Hd.
    destruct (Z.eqb_spec (net_http.ContentLength response) 0); [contradiction|].
    rewrite Hd. cbn [fst snd]. rewrite Ec. eexists. reflexivity.
Qed.


(** X10: the two operations that add a job send the job as the caller
    gave it, whatever its schedule and parents: [AddScheduledJob] one POST
    to [scheduler/iso8601], [AddDependentJob] one POST to
    [scheduler/dependency], each with the job's JSON text as body. *)
Theorem add_job_posts (job : Job) (w : World) (h : net_http.Client) :
  http (client w) = Some h ->
  encodable job = true ->
  (exists e w',
     AddScheduledJob cap job w = Some (e, job, w')
     /\ sendsOne w w' "POST" "scheduler/iso8601" (encodeJob cap job))
  /\ (exists e w',
        AddDependentJob cap job w = Some (e, job, w')
        /\ sendsOne w w' "POST" "scheduler/dependency" (encodeJob cap job)).
Proof.
  intros Hh He. split.
  - destruct (@apiPost_sends cap ChronosAPIAddScheduledJob job w h Hh He)
      as [e [w' [Hrun Hs]]].
    unfold AddScheduledJob, bind. rewrite Hrun. do 2 eexists.
    split; [reflexivity | exact Hs].
  - destruct (@apiPost_sends cap ChronosAPIAddDependentJob job w h Hh He)
      as [e [w' [Hrun Hs]]].
    unfold AddDependentJob, bind. rewrite Hrun. do 2 eexists.
    split; [reflexivity | exact Hs].
Qed.

(** A call without body and result slot sends one request. *)
Lemma bodiless_sends (method uri : string) (args : StringMap) (w : World)
    (h : net_http.Client) :
  http (client w) = Some h ->
  net_http.validMethod method = true ->
  exists outcome slot w' r,
    apiCall cap method uri args "" NilSlot w = Some (outcome, slot, w')
    /\ requests (trace w') = (requests (trace w) ++ [r])%list
    /\ net_http.Method r = method
    /\ url.Path (net_http.Target r) = path.Join [APIPrefix (client w); uri]
    /\ net_http.Payload r = ""
    /\ forall k v, In (k, v) args -> carries r k v.
Proof.
  intros Hh Hm.
  destruct (@apiCall_effect cap method uri args "" NilSlot w h Hh Hm)
    as [outcome [slot [t [Hrun Ht]]]].
  rewrite Hrun. do 4 eexists. split; [reflexivity|].
  cbn [called trace]. split; [exact Ht|]. repeat (split; [reflexivity|]).
  intros k v Hkv. eexists. split; [reflexivity|].
  apply pieces_lookup, lookup_fold_Add. now left.
Qed.

(** X11: for a name that is one plain path element, on a client whose
    transport is set, [DeleteJob] sends one DELETE to
    [scheduler/job/<name>], [DeleteJobTasks] one DELETE to
    [scheduler/task/kill/<name>] and [StartJob] one PUT to
    [scheduler/job/<name>] whose query carries every argument; none has
    a body. *)
Theorem named_job_requests (name : string) (args : StringMap) (w : World)
    (h : net_http.Client) :
  http (client w) = Some h ->
  plain name = true ->
  (exists e w',
     DeleteJob cap name w = Some (e, w')
     /\ sendsOne w w' "DELETE" ("scheduler/job/" ++ name) "")
  /\ (exists e w',
        DeleteJobTasks cap name w = Some (e, w')
        /\ sendsOne w w' "DELETE" ("scheduler/task/kill/" ++ name) "")
  /\ (exists e w' r,
        StartJob cap name args w = Some (e, w')
        /\ requests (trace w') = (requests (trace w) ++ [r])%list
        /\ net_http.Method r = "PUT"
        /\ url.Path (net_http.Target r)
           = path.Join [APIPrefix (client w); "scheduler/job/" ++ name]
        /\ net_http.Payload r = ""
        /\ forall k v, In (k, v) args -> carries r k v).
Proof.
  intros Hh Hn.
  assert (Hj : path.Join [ChronosAPIJob; name] = "scheduler/job/" ++ name).
  { apply (@Join_segments ["scheduler"; "job"] [name]);
      [repeat constructor | repeat constructor; exact Hn | discriminate]. }
  assert (Hk : path.Join [ChronosAPIKillJobTask; name]
               = "scheduler/task/kill/" ++ name).
  { apply (@Join_segments ["scheduler"; "task"; "kill"] [name]);
      [repeat constructor | repeat constructor; exact Hn | discriminate]. }
  split; [|split].
  - destruct (@bodiless_sends HTTPDelete ("scheduler/job/" ++ name) [] w h Hh eq_refl)
      as [o [s [w' [r [Hrun [H1 [H2 [H3 [H4 _]]]]]]]]].
    unfold DeleteJob, apiDelete, bind. rewrite Hj, Hrun.
    do 2 eexists. split; [reflexivity|]. exists r. repeat split; eassumption.
  - destruct (@bodiless_sends HTTPDelete ("scheduler/task/kill/" ++ name) [] w h Hh
                eq_refl)
      as [o [s [w' [r [Hrun [H1 [H2 [H3 [H4 _]]]]]]]]].
    unfold DeleteJobTasks, apiDelete, bind. rewrite Hk, Hrun.
    do 2 eexists. split; [reflexivity|]. exists r. repeat split; eassumption.
  - destruct (@bodiless_sends HTTPPut ("scheduler/job/" ++ name) args w h Hh eq_refl)
      as [o [s [w' [r [Hrun [H1 [H2 [H3 [H4 H5]]]]]]]]].
    unfold StartJob, apiPut, bind. rewrite Hj, Hrun.
    do 3 eexists. split; [reflexivity|]. repeat split; eassumption.
Qed.

(** X12: the name of a job is not validated.  A name whose path elements
    are all empty or [.] -- the empty name, [.], [/] -- makes [DeleteJob]
    send its DELETE to [scheduler/job] itself, [DeleteJobTasks] to
    [scheduler/task/kill] and [StartJob] its PUT to [scheduler/job]. *)
Theorem degenerate_name_requests (name : string) (w : World)
    (h : net_http.Client) :
  http (client w) = Some h ->
  Forall (fun e => e = "" \/ e = ".") (split_on "/" name) ->
  (exists e w',
     DeleteJob cap name w = Some (e, w')
     /\ sendsOne w w' "DELETE" "scheduler/job" "")
  /\ (exists e w',
        DeleteJobTasks cap name w = Some (e, w')
        /\ sendsOne w w' "DELETE" "scheduler/task/kill" "")
  /\ (exists e w',
        StartJob cap name [] w = Some (e, w')
        /\ sendsOne w w' "PUT" "scheduler/job" "").
Proof.
  intros Hh Hn.
  assert (Hj : path.Join [ChronosAPIJob; name] = "scheduler/job").
  { apply (@Join_degenerate ["scheduler"; "job"] name);
      [repeat constructor | discriminate | exact Hn]. }
  assert (Hk : path.Join [ChronosAPIKillJobTask; name] = "scheduler/task/kill").
  { apply (@Join_degenerate ["scheduler"; "task"; "kill"] name);
      [repeat constructor | discriminate | exact Hn]. }
  split; [|split].
  - destruct (@bodiless_sends HTTPDelete "scheduler/job" [] w h Hh eq_refl)
      as [o [s [w' [r [Hrun [H1 [H2 [H3 [H4 _]]]]]]]]].
    unfold DeleteJob, apiDelete, bind. rewrite Hj, Hrun.
    do 2 eexists. split; [reflexivity|]. exists r. repeat split; eassumption.
  - destruct (@bodiless_sends HTTPDelete "scheduler/task/kill" [] w h Hh eq_refl)
      as [o [s [w' [r [Hrun [H1 [H2 [H3 [H4 _]]]]]]]]].
    unfold DeleteJobTasks, apiDelete, bind. rewrite Hk, Hrun.
    do 2 eexists. split; [reflexivity|]. exists r. repeat split; eassumption.
  - destruct (@bodiless_sends HTTPPut "scheduler/job" [] w h Hh eq_refl)
      as [o [s [w' [r [Hrun [H1 [H2 [H3 [H4 _]]]]]]]]].
    unfold StartJob, apiPut, bind. rewrite Hj, Hrun.
    do 2 eexists. split; [reflexivity|]. exists r. repeat split; eassumption.
Qed.

End FacadeEdges.

Lemma listing_discards_on_error_witness :
  exists js e w',
    Jobs_ (Sample.listing Sample.error_with_list) Stub.ready
    = Some (js, Some e, w')
    /\ js = [].
Proof.
  destruct (Jobs_ (Sample.listing Sample.error_with_list) Stub.ready)
    as [[[js [e|]] w']|] eqn:E.
  - exists js, e, w'. split; [reflexivity|].
    exact (proj1 (listing_discards_on_error
                    (Sample.listing Sample.error_with_list) Stub.ready)
             js e w' E).
  - cbv in E. discriminate E.
  - cbv in E. discriminate E.
Defined.

Lemma Jobs_success_witness :
  exists w',
    Jobs_ (Sample.listing Stub.ok_list) Stub.ready
    = Some ([Stub.job], None, w').
Proof.
  destruct (@Jobs_success (Sample.listing Stub.ok_list) Stub.ready
              (net_http.mkClient (seconds 5)) Stub.ok_list eq_refl eq_refl)
    as [_ H].
  - unfold success. simpl. lia.
  - apply H; [discriminate | reflexivity].
Defined.


Lemma add_job_posts_witness :
  exists e w',
    AddDependentJob (Stub.answering Stub.ok_empty) Stub.job Sample.secured
    = Some (e, Stub.job, w')
    /\ sendsOne Sample.secured w' "POST" "scheduler/dependency"
         "backup;R/2023-01-01T00:00:00Z/P1D;".
Proof.
  exact (proj2 (@add_job_posts (Stub.answering Stub.ok_empty) Stub.job
                  Sample.secured (net_http.mkClient (seconds 30))
                  eq_refl eq_refl)).
Defined.

Lemma named_job_requests_witness :
  exists e w',
    DeleteJob (Stub.answering Stub.ok_empty) "backup" Sample.secured
    = Some (e, w')
    /\ sendsOne Sample.secured w' "DELETE" "scheduler/job/backup" "".
Proof.
  exact (proj1 (@named_job_requests (Stub.answering Stub.ok_empty) "backup"
                  [] Sample.secured (net_http.mkClient (seconds 30))
                  eq_refl eq_refl)).
Defined.

Lemma degenerate_name_requests_witness :
  (exists e w',
     DeleteJob (Stub.answering Stub.ok_empty) "" Stub.ready = Some (e, w')
     /\ sendsOne Stub.ready w' "DELETE" "scheduler/job" "")
  /\ (exists e w',
        DeleteJobTasks (Stub.answering Stub.ok_empty) "./" Stub.ready
        = Some (e, w')
        /\ sendsOne Stub.ready w' "DELETE" "scheduler/task/kill" "").
Proof.
  split.
  - apply (proj1 (@degenerate_name_requests (Stub.answering Stub.ok_empty) ""
                    Stub.ready (net_http.mkClient (seconds 5)) eq_refl
                    (Forall_cons "" (or_introl eq_refl) (Forall_nil _)))).
  - apply (proj1 (proj2 (@degenerate_name_requests
                           (Stub.answering Stub.ok_empty) "./" Stub.ready
                           (net_http.mkClient (seconds 5)) eq_refl
                           (Forall_cons "." (or_intror eq_refl)
                              (Forall_cons "" (or_introl eq_refl)
                                 (Forall_nil _)))))).
Defined.

(* ===================================================================== *)
(** * The query of the shared URL *)
(* ===================================================================== *)

Lemma QueryEscape_cons (c : ascii) (s : string) :
  url.QueryUnescape (url.QueryEscape (String c s))
  = match url.QueryUnescape (url.QueryEscape s) with
    | Some r => Some (String c r)
    | None => None
    end.
Proof. destruct c as [[|] [|] [|] [|] [|] [|] [|] [|]]; reflexivity. Qed.

(** Unescaping undoes escaping, for every byte string. *)
Lemma QueryUnescape_QueryEscape (s : string) :
  url.QueryUnescape (url.QueryEscape s) = Some s.
Proof.
  induction s as [|c s IH]; [reflexivity|]. now rewrite QueryEscape_cons, IH.
Qed.

Lemma QueryEscape_separators (s : string) :
  contains_byte "&" (url.QueryEscape s) = false
  /\ contains_byte "=" (url.QueryEscape s) = false
  /\ contains_byte ";" (url.QueryEscape s) = false.
Proof.
  induction s as [|c s [IH1 [IH2 IH3]]]; [repeat split|].
  assert (H : forall x, x = "&"%char \/ x = "="%char \/ x = ";"%char ->
            contains_byte x (url.QueryEscape (String c s))
            = contains_byte x (url.QueryEscape s)).
  { intros x [-> | [-> | ->]];
      destruct c as [[|] [|] [|] [|] [|] [|] [|] [|]]; reflexivity. }
  rewrite !H by tauto. tauto.
Qed.

Lemma piece_separators (k v : string) :
  contains_byte "&" (piece k v) = false
  /\ contains_byte ";" (piece k v) = false
  /\ String.eqb (piece k v) "" = false.
Proof.
  unfold piece.
  destruct (QueryEscape_separators k) as [K1 [_ K3]].
  destruct (QueryEscape_separators v) as [V1 [_ V3]].
  change ("=" ++ url.QueryEscape v) with (String "=" (url.QueryEscape v)).
  rewrite !contains_byte_app. cbn [contains_byte]. rewrite K1, K3, V1, V3.
  repeat split. destruct (url.QueryEscape k); reflexivity.
Qed.

Lemma parsePiece_piece (m : url.Values) (k v : string) :
  url.parsePiece m (piece k v) = url.Add m k v.
Proof.
  destruct (piece_separators k v) as [_ [H2 H3]].
  unfold url.parsePiece. rewrite H2, H3. unfold piece.
  change ("=" ++ url.QueryEscape v) with (String "=" (url.QueryEscape v)).
  rewrite strings_Cut_app by apply QueryEscape_separators.
  now rewrite !QueryUnescape_QueryEscape.
Qed.

Lemma concat_amp_cons (x : string) (xs : list string) :
  xs <> [] ->
  String.concat "&" (x :: xs) = x ++ String "&" (String.concat "&" xs).
Proof. destruct xs; [congruence | reflexivity]. Qed.

Lemma split_concat_amp (ps : list string) :
  Forall (fun p => contains_byte "&" p = false) ps -> ps <> [] ->
  split_on "&" (String.concat "&" ps) = ps.
Proof.
  induction 1 as [|x xs Hx Hxs IH]; intros Hne; [congruence|].
  destruct xs as [|y ys].
  - simpl. now apply split_on_nosep.
  - rewrite concat_amp_cons by discriminate.
    rewrite split_on_app by assumption. f_equal. apply IH. discriminate.
Qed.

Lemma pieces_shape (m : url.Values) (p : string) :
  In p (url.pieces m) -> exists k v, p = piece k v.
Proof.
  unfold url.pieces. intros H. apply in_flat_map in H.
  destruct H as [[k vs] [_ H]]. apply in_map_iff in H.
  destruct H as [v [<- _]]. now exists k, v.
Qed.

Lemma fold_parse_keeps (ps : list string) (m : url.Values) (k v : string) :
  (forall p, In p ps -> exists k' v', p = piece k' v') ->
  In v (url.lookup m k) ->
  In v (url.lookup (fold_left url.parsePiece ps m) k).
Proof.
  revert m. induction ps as [|p ps IH]; intros m Hps Hm; [exact Hm|].
  simpl. apply IH; [intros q Hq; apply Hps; now right|].
  destruct (Hps p (or_introl eq_refl)) as [k' [v' ->]].
  rewrite parsePiece_piece. now apply lookup_Add_keep.
Qed.

Lemma fold_parse_adds (ps : list string) (m : url.Values) (k v : string) :
  (forall p, In p ps -> exists k' v', p = piece k' v') ->
  In (piece k v) ps ->
  In v (url.lookup (fold_left url.parsePiece ps m) k).
Proof.
  revert m. induction ps as [|p ps IH]; intros m Hps Hin; [contradiction|].
  simpl. destruct Hin as [-> | Hin].
  - apply fold_parse_keeps; [intros q Hq; apply Hps; now right|].
    rewrite parsePiece_piece. apply lookup_Add_same.
  - apply IH; [intros q Hq; apply Hps; now right | exact Hin].
Qed.

(** Parsing an encoded query gives back every value under its key. *)
Lemma ParseQuery_Encode (m : url.Values) (k v : string) :
  In v (url.lookup m k) -> In v (url.lookup (url.ParseQuery (url.Encode m)) k).
Proof.
  intros H. apply pieces_lookup in H. fold (piece k v) in H.
  unfold url.ParseQuery, url.Encode.
  rewrite split_concat_amp.
  - apply fold_parse_adds; [apply pieces_shape | exact H].
  - apply Forall_forall. intros p Hp.
    destruct (pieces_shape _ _ Hp) as [k' [v' ->]]. apply piece_separators.
  - intros E. rewrite E in H. contradiction.
Qed.

Section SharedQuery.

Variable cap : Capabilities.

(** X13: the query of the client's URL only grows.  A call sends, besides
    its own parameters, every parameter the client's URL held before it,
    and leaves them all in the client's URL, its own included: a query
    parameter of one call goes out with every later call on the client. *)
Theorem query_persists (method uri : string) (queryParams : StringMap)
    (body : string) (result : Slot) (w : World) (h : net_http.Client) :
  http (client w) = Some h ->
  net_http.validMethod method = true ->
  exists outcome slot w' r,
    apiCall cap method uri queryParams body result w = Some (outcome, slot, w')
    /\ requests (trace w') = (requests (trace w) ++ [r])%list
    /\ (forall k v, holds (client w) k v ->
        carries r k v /\ holds (client w') k v)
    /\ (forall k v, In (k, v) queryParams ->
        carries r k v /\ holds (client w') k v).
Proof.
  intros Hh Hm.
  destruct (@apiCall_effect cap method uri queryParams body result w h Hh Hm)
    as [outcome [slot [t [Hrun Ht]]]].
  rewrite Hrun. do 4 eexists. split; [reflexivity|].
  cbn [called trace client]. split; [exact Ht|].
  assert (Hboth : forall k v,
            In v (url.lookup
                    (fold_left (fun q kv => url.Add q (fst kv) (snd kv))
                       queryParams (url.Query (URL (client w)))) k) ->
            carries (requestOf (client w) method uri queryParams body) k v
            /\ holds (set_URL (client w) (nextURL (client w) uri queryParams))
                 k v).
  { intros k v Hin. split.
    - eexists. split; [reflexivity|]. now apply pieces_lookup.
    - unfold holds, url.Query. cbn [set_URL URL nextURL url.RawQuery].
      now apply ParseQuery_Encode. }
  split; intros k v Hkv; apply Hboth, lookup_fold_Add; [now right | now left].
Qed.

End SharedQuery.

Lemma query_persists_witness :
  exists outcome slot w' r,
    apiCall (Stub.answering Stub.ok_list) "GET" "scheduler/jobs" [] ""
      (JobsSlot []) Sample.searched
    = Some (outcome, slot, w')
    /\ requests (trace w') = [r]
    /\ carries r "name" "a".
Proof.
  destruct (@query_persists (Stub.answering Stub.ok_list) "GET"
              "scheduler/jobs" [] "" (JobsSlot []) Sample.searched
              (net_http.mkClient (seconds 5)) eq_refl eq_refl)
    as [o [s [w' [r [H [H1 [H2 _]]]]]]].
  exists o, s, w', r. split; [exact H|]. split; [exact H1|].
  apply H2. left. reflexivity.
Defined.

(* ===================================================================== *)
(** * Before and after Init *)
(* ===================================================================== *)


Section Lifecycle.

Variable cap : Capabilities.

Lemma apiCall_panics (method uri : string) (queryParams : StringMap)
    (body : string) (result : Slot) (w : World) :
  http (client w) = None ->
  net_http.validMethod method = true ->
  apiCall cap method uri queryParams body result w = None.
Proof.
  intros Hh Hm. unfold apiCall, bind. rewrite buildURL_run.
  unfold httpCall, newRequest, bind, getClient, net_http.NewRequest.
  rewrite Hm. cbn [called client ret]. unfold set_URL at 1. cbn [http].
  now rewrite Hh.
Qed.


(** X15: on a client whose transport was never set (no [Init]), every
    operation that reaches the transport panics instead of returning an
    error: [Jobs], [SearchJobs] with a name that is not blank, [DeleteJob],
    [DeleteJobTasks], [StartJob] and, for a job that JSON can encode, the
    four operations that post a job. *)
Theorem before_Init_panics (w : World) :
  http (client w) = None ->
  Jobs_ cap w = None
  /\ (forall name, ~ blank name -> SearchJobs cap name w = None)
  /\ (forall name, DeleteJob cap name w = None)
  /\ (forall name, DeleteJobTasks cap name w = None)
  /\ (forall name args, StartJob cap name args w = None)
  /\ (forall job, encodable job = true ->
      AddScheduledJob cap job w = None
      /\ AddDependentJob cap job w = None
      /\ RunOnceNowJob cap job w = None
      /\ UnscheduleJob cap job w = None).
Proof.
  intros Hh.
  assert (Hp : forall uri j, encodable j = true ->
            apiPost cap uri [] j NilSlot w = None).
  { intros uri j Hj. unfold apiPost, json_Marshal. fold (encodable j).
    rewrite Hj. unfold bind.
    now rewrite (@apiCall_panics HTTPPost uri [] _ NilSlot w Hh eq_refl). }
  split; [|split; [|split; [|split; [|split]]]].
  - unfold Jobs_, apiGet, bind.
    now rewrite (@apiCall_panics HTTPGet _ [] "" _ w Hh eq_refl).
  - intros name Hb. unfold SearchJobs.
    destruct (String.length (strings_TrimSpace name) =? 0)%nat eqn:E;
      [elim Hb; now apply TrimSpace_empty|].
    unfold apiGet, bind.
    now rewrite (@apiCall_panics HTTPGet _ _ "" _ w Hh eq_refl).
  - intros name. unfold DeleteJob, apiDelete, bind.
    now rewrite (@apiCall_panics HTTPDelete _ [] "" _ w Hh eq_refl).
  - intros name. unfold DeleteJobTasks, apiDelete, bind.
    now rewrite (@apiCall_panics HTTPDelete _ [] "" _ w Hh eq_refl).
  - intros name args. unfold StartJob, apiPut, bind.
    now rewrite (@apiCall_panics HTTPPut _ args "" _ w Hh eq_refl).
  - intros job He. repeat split.
    + unfold AddScheduledJob, bind. now rewrite Hp.
    + unfold AddDependentJob, bind. now rewrite Hp.
    + unfold RunOnceNowJob, AddScheduledJob, bind. now rewrite Hp.
    + unfold UnscheduleJob, bind. now rewrite Hp.
Qed.

End Lifecycle.


Lemma before_Init_panics_witness :
  DeleteJob (Stub.answering Stub.ok_empty) "backup" Stub.v1 = None
  /\ AddScheduledJob (Stub.answering Stub.ok_empty) Stub.job Stub.v1 = None.
Proof.
  destruct (@before_Init_panics (Stub.answering Stub.ok_empty) Stub.v1 eq_refl)
    as [_ [_ [Hd [_ [_ Ha]]]]].
  split; [apply Hd | apply Ha; reflexivity].
Defined.

(* ===================================================================== *)
(** * The start field *)
(* ===================================================================== *)

Lemma append_nonempty (a b : string) (c : ascii) : a ++ String c b <> "".
Proof. destruct a; discriminate. Qed.

(** X16: the start field of a schedule is empty for the zero instant and
    for no other: an instant with a second or a nanosecond that is not
    zero is always written out, so that a schedule reads "start
    immediately" exactly when the zero instant was given, in any zone. *)
Theorem start_empty_iff_zero (t : time.Time) :
  formatTimeString t = "" <-> time.sec t = 0 /\ time.nsec t = 0.
Proof.
  split; [|apply formatTimeString_cases].
  intros H. unfold formatTimeString, time.IsZero in H.
  destruct (Z.eqb_spec (time.sec t) 0) as [Hs|Hs];
    destruct (Z.eqb_spec (time.nsec t) 0) as [Hn|Hn]; simpl in H; auto;
    exfalso; unfold time.Format_RFC3339Nano in H;
    destruct (time.date ((time.sec t + time.offset t) / 86400)) as [[y m] d];
    exact (append_nonempty _ _ _ H).
Qed.

Lemma start_empty_iff_zero_witness :
  formatTimeString (time.mkTime 0 0 (-18000)) = ""
  /\ formatTimeString (time.mkTime 0 1 0) <> "".
Proof.
  split.
  - apply (proj2 (start_empty_iff_zero (time.mkTime 0 0 (-18000)))).
    split; reflexivity.
  - intros H. apply (proj1 (start_empty_iff_zero (time.mkTime 0 1 0))) in H.
    destruct H as [_ H]. discriminate H.
Defined.
